(** * tinyTalk runtime: values, expression evaluation, transactions, when dispatch

    A shallow embedding of [tinytalk-lang/src/runtime.c].  Every definition
    below follows one C function of that file; the name of the C function is
    kept.  The declarations of [runtime.h], [parser.h] and [lexer.h] (the
    [Value] union, the [ASTNode] union, the token enumeration) are taken from
    the way [runtime.c] uses them. *)

From Stdlib Require Import ZArith String Ascii List Bool Lia.
From Stdlib Require Import Floats.SpecFloat.
From stdpp Require Import base option list strings gmap.

Local Open Scope Z_scope.
Local Open Scope string_scope.
Local Open Scope list_scope.

(** ** C doubles

    [double] is IEEE 754 binary64: 53 bits of precision, exponents up to 1024.
    The operations are those of the standard library's executable
    specification of binary floating point. *)

Module Double.

Definition prec : Z := 53.
Definition emax : Z := 1024.

Definition t : Type := spec_float.

Definition add : t -> t -> t := SFadd prec emax.
Definition sub : t -> t -> t := SFsub prec emax.
Definition mul : t -> t -> t := SFmul prec emax.
Definition div : t -> t -> t := SFdiv prec emax.

Definition zero : t := S754_zero false.
Definition infinity : t := S754_infinity false.

(** The double nearest to an integer (round to nearest even). *)
Definition of_Z (z : Z) : t := binary_normalize prec emax z 0 false.

(** C's [x != y] on doubles: true when the operands are unordered (NaN). *)
Definition neq (x y : t) : bool := negb (SFeqb x y).

End Double.

(** ** Values *)

(** Modelled from the spec: the [Value] tagged union of [runtime.h]
    ([Number | String | Boolean | Null | Array]); [runtime.c] reads the tags
    [TYPE_NUMBER], [TYPE_STRING], [TYPE_BOOLEAN], [TYPE_NULL], [TYPE_ARRAY] and
    the members [as.number], [as.string], [as.boolean], [as.array.items],
    [as.array.count]. *)
Inductive ValueType : Type :=
  | TYPE_NUMBER
  | TYPE_STRING
  | TYPE_BOOLEAN
  | TYPE_NULL
  | TYPE_ARRAY.

#[warnings="-register-all"]
Inductive Value : Type :=
  | VNumber (number : Double.t)
  | VString (str : string)
  | VBoolean (boolean : bool)
  | VNull
  | VArray (items : list Value).

Definition value_type (v : Value) : ValueType :=
  match v with
  | VNumber _ => TYPE_NUMBER
  | VString _ => TYPE_STRING
  | VBoolean _ => TYPE_BOOLEAN
  | VNull => TYPE_NULL
  | VArray _ => TYPE_ARRAY
  end.

Definition value_number (n : Double.t) : Value := VNumber n.

(** [strdup] yields a new block with the same text. *)
Definition strdup (s : string) : string := s.

Definition value_string (s : string) : Value := VString (strdup s).
Definition value_boolean (b : bool) : Value := VBoolean b.
Definition value_null : Value := VNull.

(** [value_copy]: the [switch] has cases for number, string, boolean and null;
    every other tag takes the [default] branch. *)
Definition value_copy (v : Value) : Value :=
  match v with
  | VNumber n => VNumber n
  | VString s => VString (strdup s)
  | VBoolean b => VBoolean b
  | VNull => VNull
  | VArray _ => value_null
  end.

Definition is_array (v : Value) : bool :=
  match v with VArray _ => true | _ => false end.

(** ** Syntax trees *)

(** Modelled from the spec: the token tags of [lexer.h] that the evaluator
    tests; [TOKEN_OTHER] stands for every other token of the enumeration. *)
Inductive TokenType : Type :=
  | TOKEN_PLUS_OP
  | TOKEN_PLUS
  | TOKEN_AMPERSAND
  | TOKEN_MINUS
  | TOKEN_TIMES
  | TOKEN_DIV
  | TOKEN_OTHER (code : nat).

(** The members [as.field] and [as.when] of a node.  [runtime.c] reads them
    from the children of a blueprint node without testing the child's tag, so
    the children of a blueprint are kept at these two shapes. *)
Record FieldDecl (N : Type) : Type := mkField {
  field_name : string;
  initial_value : option N
}.
Arguments mkField {N} _ _.
Arguments field_name {N} _.
Arguments initial_value {N} _.

Record WhenDecl (N : Type) : Type := mkWhen {
  when_name : string;
  actions : list N;
  result_message : option string
}.
Arguments mkWhen {N} _ _ _.
Arguments when_name {N} _.
Arguments actions {N} _.
Arguments result_message {N} _.

(** Modelled from the spec: the [ASTNode] union of [parser.h], with the node
    tags [runtime.c] tests ([NODE_LITERAL], [NODE_IDENTIFIER],
    [NODE_BINARY_OP], [NODE_ACTION_SET], [NODE_BLUEPRINT]); [NODE_OTHER]
    stands for every other tag.  A child pointer that may be [NULL] is an
    [option]. *)
#[warnings="-register-all"]
Inductive ASTNode : Type :=
  | NODE_LITERAL (value : Value)
  | NODE_IDENTIFIER (name : string)
  | NODE_BINARY_OP (op : TokenType) (left right : option ASTNode)
  | NODE_ACTION_SET (field : string) (value : option ASTNode)
  | NODE_BLUEPRINT (name : string)
                   (fields : list (FieldDecl ASTNode))
                   (states : list string)
                   (whens : list (WhenDecl ASTNode))
  | NODE_OTHER (kind : nat).

Definition is_blueprint_node (node : ASTNode) : bool :=
  match node with NODE_BLUEPRINT _ _ _ _ => true | _ => false end.

(** ** Runtime structures *)

(** [struct Blueprint].  The members [name], [fields], [states], [whens] carry
    the prefix [bp_]; the counts [field_count], [state_count], [when_count]
    are the lengths of the lists. *)
Record Blueprint : Type := mkBlueprint {
  bp_name : string;
  bp_fields : list (FieldDecl ASTNode);
  bp_states : list string;
  bp_whens : list (WhenDecl ASTNode)
}.

Definition field_count (bp : Blueprint) : nat := length (bp_fields bp).
Definition when_count (bp : Blueprint) : nat := length (bp_whens bp).

(** [struct Instance].  [blueprint] is the blueprint the pointer refers to:
    no function changes a blueprint once it is defined.  A pointer that may
    be [NULL] ([current_state], [field_snapshot]) is an [option]. *)
Record Instance : Type := mkInstance {
  blueprint : Blueprint;
  field_values : list Value;
  current_state : option string;
  in_transaction : bool;
  field_snapshot : option (list Value)
}.

Record ExecutionBounds : Type := mkBounds {
  max_iterations : Z;
  max_recursion_depth : Z;
  max_operations : Z;
  timeout_seconds : Double.t
}.

(** The runtime.  [variables] pairs [variable_names[i]] with [variables[i]] in
    slot order.  The [instances] array only stores the pointers handed out by
    [runtime_create_instance]; the instances themselves are passed to the
    functions below, as in the C signatures, so the runtime keeps their
    number.  The counters and limits are integers without a bound (their C
    types are declared in [runtime.h]).  [stderr] is the text written to the
    process's error stream. *)
Record Runtime : Type := mkRuntime {
  instance_count : nat;
  blueprints : list Blueprint;
  variables : list (string * Value);
  bounds : ExecutionBounds;
  operation_count : Z;
  recursion_depth : Z;
  stderr : list string
}.

Record Result : Type := mkResult {
  success : bool;
  message : option string;
  result_value : Value
}.

(** Number of slots of the [blueprints] and [instances] arrays
    ([calloc(64, ...)]). *)
Definition BLUEPRINT_SLOTS : nat := 64.
Definition INSTANCE_SLOTS : nat := 64.

(** What a call does: it returns, or it stores past the end of one of the
    fixed arrays, where C defines no behaviour. *)
Inductive outcome (A : Type) : Type :=
  | Returns (a : A)
  | Overrun.
Arguments Returns {A} _.
Arguments Overrun {A}.

Definition runtime_init (err : list string) : Runtime :=
  {| instance_count := 0;
     blueprints := [];
     variables := [];
     bounds := {| max_iterations := 10000;
                  max_recursion_depth := 100;
                  max_operations := 1000000;
                  timeout_seconds := Double.of_Z 30 |};
     operation_count := 0;
     recursion_depth := 0;
     stderr := err |}.

(** ** Variables *)

(** [runtime_get_variable]: the first slot whose name compares equal, or
    [NULL]. *)
Definition runtime_get_variable (rt : Runtime) (name : string) : option Value :=
  match list_find (fun slot : string * Value => slot.1 = name) (variables rt) with
  | Some (_, (_, v)) => Some v
  | None => None
  end.

(** ** Expression evaluation *)

(** [snprintf(buffer, size, ...)] keeps the first [size - 1] bytes of the
    formatted text and terminates them. *)
Definition snprintf (size : nat) (formatted : string) : string :=
  substring 0 (size - 1) formatted.

Definition BUFFER_SIZE : nat := 1024.

(** The operand printed by [%s] in the join: the text of a string, and the
    empty text for any other value. *)
Definition string_or_empty (v : Value) : string :=
  match v with VString s => s | _ => "" end.

(** The operator dispatch of the [NODE_BINARY_OP] case, once both operands
    are evaluated.  Each branch that does not return falls to the final
    [return value_null()]. *)
Definition binary_op_result (op : TokenType) (left right : Value) : Value :=
  match op with
  | TOKEN_PLUS_OP | TOKEN_PLUS =>
      match left, right with
      | VNumber l, VNumber r => value_number (Double.add l r)
      | VString _, _ | _, VString _ =>
          value_string
            (snprintf BUFFER_SIZE
               (string_or_empty left +:+ " " +:+ string_or_empty right))
      | _, _ => value_null
      end
  | TOKEN_AMPERSAND =>
      match left, right with
      | VString l, VString r => value_string (snprintf BUFFER_SIZE (l +:+ r))
      | _, _ => value_null
      end
  | TOKEN_MINUS =>
      match left, right with
      | VNumber l, VNumber r => value_number (Double.sub l r)
      | _, _ => value_null
      end
  | TOKEN_TIMES =>
      match left, right with
      | VNumber l, VNumber r => value_number (Double.mul l r)
      | _, _ => value_null
      end
  | TOKEN_DIV =>
      match left, right with
      | VNumber l, VNumber r => value_number (Double.div l r)
      | _, _ => value_null
      end
  | TOKEN_OTHER _ => value_null
  end.

Definition count_operation (rt : Runtime) : Runtime :=
  {| instance_count := instance_count rt;
     blueprints := blueprints rt;
     variables := variables rt;
     bounds := bounds rt;
     operation_count := operation_count rt + 1;
     recursion_depth := recursion_depth rt;
     stderr := stderr rt |}.

Definition fprintf_stderr (rt : Runtime) (text : string) : Runtime :=
  {| instance_count := instance_count rt;
     blueprints := blueprints rt;
     variables := variables rt;
     bounds := bounds rt;
     operation_count := operation_count rt;
     recursion_depth := recursion_depth rt;
     stderr := stderr rt ++ [text] |}.

Definition operations_exceeded (rt : Runtime) : bool :=
  (max_operations (bounds rt) <? operation_count rt)%Z.

Definition newline : string := String "010"%char EmptyString.

Definition MSG_OPERATIONS_EXCEEDED : string :=
  "Error: Maximum operations exceeded" +:+ newline.

(** The body of [runtime_evaluate_expression] for a node that is not [NULL]. *)
Fixpoint evaluate_node (rt : Runtime) (expr : ASTNode) : Value * Runtime :=
  let rt := count_operation rt in
  if operations_exceeded rt then
    (value_null, fprintf_stderr rt MSG_OPERATIONS_EXCEEDED)
  else
    match expr with
    | NODE_LITERAL value => (value_copy value, rt)
    | NODE_IDENTIFIER name =>
        match runtime_get_variable rt name with
        | Some var => (value_copy var, rt)
        | None => (value_null, rt)
        end
    | NODE_BINARY_OP op lhs rhs =>
        let '(l, rt) :=
          match lhs with
          | None => (value_null, rt)
          | Some e => evaluate_node rt e
          end in
        let '(r, rt) :=
          match rhs with
          | None => (value_null, rt)
          | Some e => evaluate_node rt e
          end in
        (binary_op_result op l r, rt)
    | _ => (value_null, rt)
    end.

Definition runtime_evaluate_expression (rt : Runtime) (expr : option ASTNode)
  : Value * Runtime :=
  match expr with
  | None => (value_null, rt)
  | Some e => evaluate_node rt e
  end.

Definition runtime_evaluate_condition (rt : Runtime) (condition : option ASTNode)
  : bool * Runtime :=
  match condition with
  | None => (true, rt)
  | Some _ =>
      let '(result, rt) := runtime_evaluate_expression rt condition in
      let is_true :=
        match result with
        | VBoolean b => b
        | VNumber n => Double.neq n Double.zero
        | _ => false
        end in
      (is_true, rt)
  end.

(** ** Blueprint registry and instances *)

Definition with_blueprints (rt : Runtime) (bps : list Blueprint) : Runtime :=
  {| instance_count := instance_count rt;
     blueprints := bps;
     variables := variables rt;
     bounds := bounds rt;
     operation_count := operation_count rt;
     recursion_depth := recursion_depth rt;
     stderr := stderr rt |}.

Definition with_instance_count (rt : Runtime) (n : nat) : Runtime :=
  {| instance_count := n;
     blueprints := blueprints rt;
     variables := variables rt;
     bounds := bounds rt;
     operation_count := operation_count rt;
     recursion_depth := recursion_depth rt;
     stderr := stderr rt |}.

Definition blueprint_count (rt : Runtime) : nat := length (blueprints rt).

(** [runtime_define_blueprint]: [NULL] for a node that is not a blueprint;
    otherwise the new blueprint is stored in slot [blueprint_count], with no
    test against the 64 slots. *)
Definition runtime_define_blueprint (rt : Runtime) (node : ASTNode)
  : outcome (option Blueprint * Runtime) :=
  match node with
  | NODE_BLUEPRINT name fields states whens =>
      let bp := {| bp_name := strdup name;
                   bp_fields := fields;
                   bp_states := states;
                   bp_whens := whens |} in
      if decide (blueprint_count rt < BLUEPRINT_SLOTS)%nat then
        Returns (Some bp, with_blueprints rt (blueprints rt ++ [bp]))
      else Overrun
  | _ => Returns (None, rt)
  end.

(** The lookup loop of [runtime_create_instance]: the slot and the blueprint
    of the first entry whose name compares equal. *)
Definition find_blueprint (rt : Runtime) (blueprint_name : string)
  : option (nat * Blueprint) :=
  list_find (fun bp => bp_name bp = blueprint_name) (blueprints rt).

(** The initialisation loop of [runtime_create_instance]: one evaluation per
    field, in field order, each in the runtime left by the one before. *)
Fixpoint initialize_fields (rt : Runtime) (fields : list (FieldDecl ASTNode))
  : list Value * Runtime :=
  match fields with
  | [] => ([], rt)
  | f :: rest =>
      let '(v, rt) := runtime_evaluate_expression rt (initial_value f) in
      let '(vs, rt) := initialize_fields rt rest in
      (v :: vs, rt)
  end.

Definition runtime_create_instance (rt : Runtime) (blueprint_name : string)
  : outcome (option Instance * Runtime) :=
  match find_blueprint rt blueprint_name with
  | None => Returns (None, rt)
  | Some (_, bp) =>
      let '(values, rt) := initialize_fields rt (bp_fields bp) in
      let inst := {| blueprint := bp;
                     field_values := values;
                     current_state := None;
                     in_transaction := false;
                     field_snapshot := None |} in
      if decide (instance_count rt < INSTANCE_SLOTS)%nat then
        Returns (Some inst, with_instance_count rt (S (instance_count rt)))
      else Overrun
  end.

(** ** Transactions *)

(** The field vector of an instance has one slot per field of its blueprint
    ([calloc(bp->field_count, sizeof(Value))]). *)
Definition fields_allocated (inst : Instance) : Prop :=
  length (field_values inst) = field_count (blueprint inst).

(** [runtime_begin_transaction]: slot [i] of the snapshot is a copy of field
    [i], for [i < field_count].  [calloc] is taken to hand out a block also
    for a count of zero, so the snapshot pointer is never [NULL] here. *)
Definition runtime_begin_transaction (inst : Instance) : Instance :=
  {| blueprint := blueprint inst;
     field_values := field_values inst;
     current_state := current_state inst;
     in_transaction := true;
     field_snapshot :=
       Some (value_copy <$> take (field_count (blueprint inst)) (field_values inst)) |}.

Definition runtime_commit_transaction (inst : Instance) : Instance :=
  {| blueprint := blueprint inst;
     field_values := field_values inst;
     current_state := current_state inst;
     in_transaction := false;
     field_snapshot := None |}.

(** [runtime_rollback_transaction]: nothing outside a transaction or without
    a snapshot; otherwise field [i] becomes a copy of slot [i] of the
    snapshot, for [i < field_count]. *)
Definition runtime_rollback_transaction (inst : Instance) : Instance :=
  match in_transaction inst, field_snapshot inst with
  | true, Some snapshot =>
      let n := field_count (blueprint inst) in
      {| blueprint := blueprint inst;
         field_values :=
           (value_copy <$> take n snapshot) ++ drop n (field_values inst);
         current_state := current_state inst;
         in_transaction := false;
         field_snapshot := None |}
  | _, _ => inst
  end.

(** ** Execution *)

Definition runtime_execute (rt : Runtime) (node : option ASTNode)
  : outcome (Result * Runtime) :=
  match node with
  | None =>
      Returns ({| success := false;
                  message := Some (strdup "No AST node to execute");
                  result_value := value_null |}, rt)
  | Some n =>
      if is_blueprint_node n then
        match runtime_define_blueprint rt n with
        | Returns (Some _, rt) =>
            Returns ({| success := true;
                        message := Some (strdup "Blueprint defined successfully");
                        result_value := value_null |}, rt)
        | Returns (None, rt) =>
            Returns ({| success := false;
                        message := Some (strdup "Failed to define blueprint");
                        result_value := value_null |}, rt)
        | Overrun => Overrun
        end
      else
        Returns ({| success := true;
                    message := None;
                    result_value := value_null |}, rt)
  end.

(** The field search of a set action: the first field of the blueprint whose
    name compares equal takes the new value; without one nothing is stored.
    The index found is below [field_count], so within the field vector of an
    instance that satisfies [fields_allocated]. *)
Definition set_field (inst : Instance) (field : string) (new_value : Value)
  : Instance :=
  match list_find (fun f : FieldDecl ASTNode => field_name f = field)
                  (bp_fields (blueprint inst)) with
  | Some (k, _) =>
      {| blueprint := blueprint inst;
         field_values := <[k := new_value]> (field_values inst);
         current_state := current_state inst;
         in_transaction := in_transaction inst;
         field_snapshot := field_snapshot inst |}
  | None => inst
  end.

(** One turn of the action loop of [runtime_execute_when]. *)
Definition execute_action (rt : Runtime) (inst : Instance) (action : ASTNode)
  : Instance * Runtime :=
  match action with
  | NODE_ACTION_SET field value =>
      let '(new_value, rt) := runtime_evaluate_expression rt value in
      (set_field inst field new_value, rt)
  | _ => (inst, rt)
  end.

Fixpoint execute_actions (rt : Runtime) (inst : Instance) (acts : list ASTNode)
  : Instance * Runtime :=
  match acts with
  | [] => (inst, rt)
  | action :: rest =>
      let '(inst, rt) := execute_action rt inst action in
      execute_actions rt inst rest
  end.

Definition find_when (inst : Instance) (name : string)
  : option (nat * WhenDecl ASTNode) :=
  list_find (fun w : WhenDecl ASTNode => when_name w = name)
            (bp_whens (blueprint inst)).

(** [runtime_execute_when]; [args] and [arg_count] are not used by the C
    function and are left out. *)
Definition runtime_execute_when (rt : Runtime) (inst : Instance) (name : string)
  : Result * Instance * Runtime :=
  match find_when inst name with
  | None =>
      ({| success := false;
          message := Some (strdup "When clause not found");
          result_value := value_null |}, inst, rt)
  | Some (_, when) =>
      let inst := runtime_begin_transaction inst in
      let '(inst, rt) := execute_actions rt inst (actions when) in
      let inst := runtime_commit_transaction inst in
      ({| success := true;
          message :=
            Some (match result_message when with
                  | Some m => strdup m
                  | None => strdup "When clause executed successfully"
                  end);
          result_value := value_null |}, inst, rt)
  end.

(** ** Values in memory

    The functions above treat a value as its contents.  [runtime.c] holds the
    text of a string in a block of its own ([strdup]) and a [Value] holds the
    address of the block, so two values may share a block.  This module
    follows [value_copy] and [value_free] at that level: a heap of character
    blocks, and values that refer to them by address. *)

Module Memory.

Definition address : Type := positive.

(** The character blocks that are allocated, with their text. *)
Abbreviation heap := (gmap address string) (only parsing).

#[warnings="-register-all"]
Inductive cell : Type :=
  | CNumber (number : Double.t)
  | CString (text : address)
  | CBoolean (boolean : bool)
  | CNull
  | CArray (items : list cell).

(** [strdup]: a block that was not allocated before, holding the same
    text. *)
Definition strdup (h : heap) (s : string) : address * heap :=
  let p := fresh (dom h) in (p, <[p := s]> h).

(** [value_copy]; [None] when the string's block is not allocated (the C
    function would read freed memory). *)
Definition value_copy (h : heap) (v : cell) : option (cell * heap) :=
  match v with
  | CNumber n => Some (CNumber n, h)
  | CString p =>
      match h !! p with
      | Some s => let '(q, h) := strdup h s in Some (CString q, h)
      | None => None
      end
  | CBoolean b => Some (CBoolean b, h)
  | CNull => Some (CNull, h)
  | CArray _ => Some (CNull, h)
  end.

(** [value_free]: the block of a string is released; the items of an array
    are released in order. *)
Fixpoint value_free (h : heap) (v : cell) : heap :=
  match v with
  | CString p => delete p h
  | CArray items => fold_left value_free items h
  | _ => h
  end.

(** The contents of a value in a heap; [None] when a block it refers to is
    not allocated. *)
Fixpoint contents (h : heap) (v : cell) : option Value :=
  match v with
  | CNumber n => Some (VNumber n)
  | CString p => VString <$> h !! p
  | CBoolean b => Some (VBoolean b)
  | CNull => Some VNull
  | CArray items => VArray <$> mapM (contents h) items
  end.

End Memory.

(** ** Predicates used in the statements *)

Definition no_array (vs : list Value) : Prop :=
  Forall (fun v => is_array v = false) vs.

(** What the action loop leaves alone: the blueprint, the snapshot, the
    transaction flag, the current state and the number of field slots. *)
Record same_frame (a b : Instance) : Prop := mkFrame {
  frame_blueprint : blueprint b = blueprint a;
  frame_snapshot : field_snapshot b = field_snapshot a;
  frame_flag : in_transaction b = in_transaction a;
  frame_state : current_state b = current_state a;
  frame_length : length (field_values b) = length (field_values a)
}.

Definition plus_operator (op : TokenType) : Prop :=
  op = TOKEN_PLUS_OP \/ op = TOKEN_PLUS.

Definition arithmetic_operator (op : TokenType) : Prop :=
  op = TOKEN_MINUS \/ op = TOKEN_TIMES \/ op = TOKEN_DIV.

(** The text the two joining operators format into the buffer. *)
Definition join_with_space (left right : Value) : string :=
  string_or_empty left +:+ " " +:+ string_or_empty right.

(** What an evaluation leaves alone in the runtime: everything but the
    operation counter, which does not go down, and the error stream. *)
Record evaluation_frame (rt rt' : Runtime) : Prop := mkEvaluationFrame {
  ef_instances : instance_count rt' = instance_count rt;
  ef_blueprints : blueprints rt' = blueprints rt;
  ef_variables : variables rt' = variables rt;
  ef_bounds : bounds rt' = bounds rt;
  ef_depth : recursion_depth rt' = recursion_depth rt;
  ef_count : (operation_count rt <= operation_count rt')%Z
}.

(** The registry of [rt'] is the registry of [rt] with further definitions
    stored after it. *)
Definition registry_extends (rt rt' : Runtime) : Prop :=
  exists later, blueprints rt' = blueprints rt ++ later.

Definition RESULT_NOT_FOUND : Result :=
  {| success := false;
     message := Some "When clause not found";
     result_value := VNull |}.

Definition is_action_set (action : ASTNode) : bool :=
  match action with NODE_ACTION_SET _ _ => true | _ => false end.

(** ** Sample data *)

Fixpoint repeat_char (c : ascii) (n : nat) : string :=
  match n with
  | O => EmptyString
  | S n => String c (repeat_char c n)
  end.

Definition box_blueprint : Blueprint :=
  {| bp_name := "Box";
     bp_fields := [mkField "items" None; mkField "label" None];
     bp_states := [];
     bp_whens :=
       [mkWhen "relabel"
               [NODE_ACTION_SET "label" (Some (NODE_LITERAL (VString "new")))]
               None;
        mkWhen "stray"
               [NODE_ACTION_SET "Nonexistent"
                  (Some (NODE_LITERAL (VNumber (Double.of_Z 5))))]
               (Some "done")] |}.

(** A box whose first field holds an array. *)
Definition box_instance : Instance :=
  {| blueprint := box_blueprint;
     field_values := [VArray [VNumber (Double.of_Z 1); VString "x"]; VString "lid"];
     current_state := None;
     in_transaction := false;
     field_snapshot := None |}.

(** A box whose fields hold a number and a string. *)
Definition plain_instance : Instance :=
  {| blueprint := box_blueprint;
     field_values := [VNumber (Double.of_Z 7); VString "lid"];
     current_state := None;
     in_transaction := false;
     field_snapshot := None |}.

(** A runtime two evaluations short of the default bound. *)
Definition busy_runtime : Runtime :=
  {| instance_count := 0;
     blueprints := [];
     variables := [];
     bounds := bounds (runtime_init []);
     operation_count := 999998;
     recursion_depth := 0;
     stderr := [] |}.

Definition a_plus_b : ASTNode :=
  NODE_BINARY_OP TOKEN_PLUS
    (Some (NODE_LITERAL (VString "a"))) (Some (NODE_LITERAL (VString "b"))).

(** ** Setting a variable *)

Definition with_variables (rt : Runtime) (vars : list (string * Value)) : Runtime :=
  {| instance_count := instance_count rt;
     blueprints := blueprints rt;
     variables := vars;
     bounds := bounds rt;
     operation_count := operation_count rt;
     recursion_depth := recursion_depth rt;
     stderr := stderr rt |}.

Definition variable_count (rt : Runtime) : nat := length (variables rt).

(** [runtime_set_variable].  The first slot whose name compares equal takes
    the value (the slot keeps its own name); without one the name and the
    value go to slot [variable_count], with no test against the
    [MAX_VARIABLES] slots of the two arrays.  [MAX_VARIABLES] is a constant of
    [runtime.h] and is an argument here. *)
Definition runtime_set_variable (MAX_VARIABLES : nat)
    (rt : Runtime) (name : string) (value : Value) : outcome Runtime :=
  match list_find (fun slot : string * Value => slot.1 = name) (variables rt) with
  | Some (i, slot) =>
      Returns (with_variables rt (<[i := (slot.1, value)]> (variables rt)))
  | None =>
      if decide (variable_count rt < MAX_VARIABLES)%nat then
        Returns (with_variables rt (variables rt ++ [(strdup name, value)]))
      else Overrun
  end.

(** ** Measures and invariants used in the statements *)

(** The number of nodes an evaluation visits when the budget suffices: the
    node itself and, below a binary operator, the nodes of both operands. *)
Fixpoint expression_size (e : ASTNode) : Z :=
  match e with
  | NODE_BINARY_OP _ lhs rhs =>
      1 + match lhs with Some l => expression_size l | None => 0 end
        + match rhs with Some r => expression_size r | None => 0 end
  | _ => 1
  end.

Definition operand_size (o : option ASTNode) : Z :=
  match o with Some e => expression_size e | None => 0 end.

Definition with_operation_count (rt : Runtime) (n : Z) : Runtime :=
  {| instance_count := instance_count rt;
     blueprints := blueprints rt;
     variables := variables rt;
     bounds := bounds rt;
     operation_count := n;
     recursion_depth := recursion_depth rt;
     stderr := stderr rt |}.

(** An instance between two handler calls: one slot per field, no array in
    a slot, no transaction open. *)
Record settled (inst : Instance) : Prop := mkSettled {
  settled_allocated : fields_allocated inst;
  settled_no_array : no_array (field_values inst);
  settled_idle : in_transaction inst = false;
  settled_no_snapshot : field_snapshot inst = None
}.

Definition names_unique (rt : Runtime) : Prop :=
  NoDup (fst <$> variables rt).

(** ** The command line ([main.c])

    [main.c] drives the runtime.  Three things it uses are not part of this
    development and are arguments here: the lexer and parser ([lexer_init],
    [parser_init], [parser_parse]: for a source text, the [had_error] flag and
    the tree, [None] for [NULL]), the standard library's [stdlib_init], and
    the file system behind [read_file] (the contents of a file that can be
    opened).  The functions are followed to their results; the text they
    write to the output streams, which includes the Screen text read through
    the standard library's [stdlib_get_screen], is not. *)
Record Collaborators : Type := mkCollaborators {
  parser_parse : string -> bool * option ASTNode;
  stdlib_init : Runtime -> Runtime;
  file_contents : string -> option string
}.

Definition read_file (env : Collaborators) (filename : string) : option string :=
  file_contents env filename.

Definition PARSE_ERROR : Result :=
  {| success := false; message := Some "Parse error"; result_value := VNull |}.

(** [tinytalk_run_string]: parse; on a parse error or without a tree, the
    failure ["Parse error"]; otherwise execute the tree in a new runtime and,
    when that succeeded on a blueprint node, create an instance by the
    blueprint's name and, when its blueprint has handlers, run the first one:
    its message, when it has one, replaces the message and its success flag
    replaces the flag. *)
Definition tinytalk_run_string (env : Collaborators) (source : string)
  : outcome Result :=
  match parser_parse env source with
  | (false, Some ast) =>
      let runtime := stdlib_init env (runtime_init []) in
      match runtime_execute runtime (Some ast) with
      | Overrun => Overrun
      | Returns (result, runtime) =>
          match ast with
          | NODE_BLUEPRINT name _ _ _ =>
              if success result then
                match runtime_create_instance runtime name with
                | Overrun => Overrun
                | Returns (Some inst, runtime) =>
                    match bp_whens (blueprint inst) with
                    | first :: _ =>
                        let '(when_result, _, _) :=
                          runtime_execute_when runtime inst (when_name first) in
                        Returns
                          {| success := success when_result;
                             message := match message when_result with
                                        | Some m => Some m
                                        | None => message result
                                        end;
                             result_value := result_value result |}
                    | [] => Returns result
                    end
                | Returns (None, _) => Returns result
                end
              else Returns result
          | _ => Returns result
          end
      end
  | _ => Returns PARSE_ERROR
  end.

Definition tinytalk_run_file (env : Collaborators) (filename : string)
  : outcome Result :=
  match read_file env filename with
  | None =>
      Returns {| success := false;
                 message := Some "Failed to read file";
                 result_value := VNull |}
  | Some source => tinytalk_run_string env source
  end.

Definition tinytalk_check_syntax (env : Collaborators) (source : string) : bool :=
  let '(had_error, ast) := parser_parse env source in
  negb had_error && bool_decide (ast <> None).

(** The line buffer of the REPL and the buffer of the wrapped source. *)
Definition LINE_SIZE : nat := 1024.
Definition WRAPPED_SIZE : nat := 2048.

Definition double_quote : string := String "034"%char EmptyString.

(** [line[strcspn(line, "\n")] = 0]: the line up to its first newline. *)
Fixpoint cut_at_newline (line : string) : string :=
  match line with
  | EmptyString => EmptyString
  | String c rest =>
      if Ascii.eqb c "010"%char then EmptyString
      else String c (cut_at_newline rest)
  end.

(** The text formatted into [wrapped]. *)
Definition wrapped_text (line : string) : string :=
  "blueprint REPL" +:+ newline +:+ "when eval" +:+ newline
  +:+ "  set Screen.text to " +:+ line +:+ newline
  +:+ "finfr " +:+ double_quote +:+ "ok" +:+ double_quote +:+ newline.

Inductive ReplStep : Type :=
  | Quit
  | Blank
  | Run (wrapped : string).

(** One turn of the loop of [tinytalk_repl] on a line read by [fgets], up to
    the call of [tinytalk_run_string]: leave the loop, go on to the next line,
    or run the wrapped source. *)
Definition repl_step (line : string) : ReplStep :=
  let line := cut_at_newline line in
  if bool_decide (line = "exit") || bool_decide (line = "quit") then Quit
  else if bool_decide (String.length line = 0%nat) then Blank
  else Run (snprintf WRAPPED_SIZE (wrapped_text line)).

(** [main], to its exit status.  The loop of [tinytalk_repl] reads the Screen
    through the standard library on every turn, so what the call of
    [tinytalk_repl] does is an argument here ([repl]). *)
Definition main (env : Collaborators) (repl : outcome unit) (argv : list string)
  : outcome Z :=
  match argv with
  | _ :: command :: arguments =>
      if bool_decide (command = "run") then
        match arguments with
        | [] => Returns 1%Z
        | filename :: _ =>
            match tinytalk_run_file env filename with
            | Overrun => Overrun
            | Returns result => if success result then Returns 0%Z else Returns 1%Z
            end
        end
      else if bool_decide (command = "repl") then
        match repl with
        | Overrun => Overrun
        | Returns _ => Returns 0%Z
        end
      else if bool_decide (command = "check") then
        match arguments with
        | [] => Returns 1%Z
        | filename :: _ =>
            match read_file env filename with
            | None => Returns 1%Z
            | Some source =>
                if tinytalk_check_syntax env source then Returns 0%Z
                else Returns 1%Z
            end
        end
      else Returns 1%Z
  | _ => Returns 1%Z
  end.

(** The standard library leaves a free slot in the registry and in the
    instance array of a new runtime. *)
Definition stdlib_leaves_room (env : Collaborators) : Prop :=
  (blueprint_count (stdlib_init env (runtime_init [])) < BLUEPRINT_SLOTS)%nat
  /\ (instance_count (stdlib_init env (runtime_init [])) < INSTANCE_SLOTS)%nat.

(** Collaborators for the examples: a parser that knows two sources, an
    empty standard library, and one file. *)
Definition sample_environment : Collaborators :=
  {| parser_parse := fun source =>
       if bool_decide (source = "counter") then
         (false,
          Some (NODE_BLUEPRINT "Counter"
                  [mkField "n" (Some (NODE_LITERAL (VNumber (Double.of_Z 0))))]
                  []
                  [mkWhen "bump"
                     [NODE_ACTION_SET "n"
                        (Some (NODE_LITERAL (VNumber (Double.of_Z 1))))]
                     (Some "bumped")]))
       else if bool_decide (source = "1 plus 2") then
         (false,
          Some (NODE_BINARY_OP TOKEN_PLUS
                  (Some (NODE_LITERAL (VNumber (Double.of_Z 1))))
                  (Some (NODE_LITERAL (VNumber (Double.of_Z 2))))))
       else (true, None);
     stdlib_init := fun rt => rt;
     file_contents := fun filename =>
       if bool_decide (filename = "counter.tt") then Some "counter" else None |}.

(** * Properties *)

(** ** Copies of values *)

Lemma value_copy_not_array (v : Value) :
  is_array v = false -> value_copy v = v.
Proof. destruct v; simpl; intros H; try reflexivity. discriminate H. Qed.

Lemma value_copy_never_array (v : Value) : is_array (value_copy v) = false.
Proof. destruct v; reflexivity. Qed.

Lemma value_copy_idempotent (v : Value) :
  value_copy (value_copy v) = value_copy v.
Proof. apply value_copy_not_array, value_copy_never_array. Qed.

Lemma value_copy_same_type (v : Value) :
  is_array v = false -> value_type (value_copy v) = value_type v.
Proof. intros H. rewrite value_copy_not_array; auto. Qed.

Lemma map_value_copy_no_array (vs : list Value) :
  no_array vs -> value_copy <$> vs = vs.
Proof.
  induction 1 as [|v vs Hv _ IH]; simpl; [reflexivity|].
  rewrite value_copy_not_array by exact Hv. f_equal. exact IH.
Qed.

Lemma map_value_copy_twice (vs : list Value) :
  value_copy <$> (value_copy <$> vs) = value_copy <$> vs.
Proof.
  induction vs as [|v vs IH]; simpl; [reflexivity|].
  rewrite value_copy_idempotent. f_equal. exact IH.
Qed.

(** ** Field vectors under the actions of a handler *)

Lemma set_field_blueprint inst field v :
  blueprint (set_field inst field v) = blueprint inst.
Proof. unfold set_field. destruct (list_find _ _) as [[k f]|]; reflexivity. Qed.

Lemma set_field_snapshot inst field v :
  field_snapshot (set_field inst field v) = field_snapshot inst
  /\ in_transaction (set_field inst field v) = in_transaction inst.
Proof. unfold set_field. destruct (list_find _ _) as [[k f]|]; auto. Qed.

Lemma set_field_length inst field v :
  length (field_values (set_field inst field v)) = length (field_values inst).
Proof.
  unfold set_field. destruct (list_find _ _) as [[k f]|]; simpl; [|reflexivity].
  apply length_insert.
Qed.

Lemma set_field_unknown inst field v :
  Forall (fun f : FieldDecl ASTNode => field_name f <> field)
         (bp_fields (blueprint inst)) ->
  set_field inst field v = inst.
Proof.
  intros H. unfold set_field.
  apply (list_find_None (fun f : FieldDecl ASTNode => field_name f = field)) in H.
  rewrite H. reflexivity.
Qed.

Lemma same_frame_refl a : same_frame a a.
Proof. split; reflexivity. Qed.

Lemma same_frame_trans a b c : same_frame a b -> same_frame b c -> same_frame a c.
Proof. intros [] []. split; congruence. Qed.

Lemma set_field_frame inst field v : same_frame inst (set_field inst field v).
Proof.
  split.
  - apply set_field_blueprint.
  - apply set_field_snapshot.
  - apply set_field_snapshot.
  - unfold set_field. destruct (list_find _ _) as [[k f]|]; reflexivity.
  - apply set_field_length.
Qed.

Lemma execute_action_frame rt inst action :
  same_frame inst (execute_action rt inst action).1.
Proof.
  destruct action; simpl; try apply same_frame_refl.
  destruct (runtime_evaluate_expression rt value) as [v rt'].
  apply set_field_frame.
Qed.

Lemma execute_actions_frame acts : forall rt inst,
  same_frame inst (execute_actions rt inst acts).1.
Proof.
  induction acts as [|a acts IH]; intros rt inst; simpl.
  - apply same_frame_refl.
  - pose proof (execute_action_frame rt inst a) as Ha.
    destruct (execute_action rt inst a) as [inst1 rt1]. simpl in Ha.
    eapply same_frame_trans; [exact Ha | apply IH].
Qed.

(** ** Rollback *)

(** After [begin], any run of actions and [rollback], the field vector is the
    element-wise copy of the vector [begin] saw. *)
Lemma rollback_after_actions rt inst acts :
  fields_allocated inst ->
  field_values
    (runtime_rollback_transaction
       (execute_actions rt (runtime_begin_transaction inst) acts).1)
  = value_copy <$> field_values inst.
Proof.
  intros Hlen.
  destruct (execute_actions_frame acts rt (runtime_begin_transaction inst))
    as [Hbp Hsnap Hflag _ Hlength].
  set (inst' := (execute_actions rt (runtime_begin_transaction inst) acts).1) in *.
  simpl in Hbp, Hsnap, Hflag, Hlength.
  unfold runtime_rollback_transaction. rewrite Hflag, Hsnap, Hbp. simpl.
  red in Hlen.
  rewrite <- Hlen, firstn_all.
  rewrite take_ge by (rewrite length_fmap; lia).
  rewrite drop_ge by lia.
  rewrite app_nil_r. apply map_value_copy_twice.
Qed.

(** Fields that hold no array come back exactly, whatever the number of
    actions in between. *)
Lemma rollback_restores_fields rt inst acts :
  fields_allocated inst ->
  no_array (field_values inst) ->
  field_values
    (runtime_rollback_transaction
       (execute_actions rt (runtime_begin_transaction inst) acts).1)
  = field_values inst.
Proof.
  intros Hlen Hno. rewrite rollback_after_actions by exact Hlen.
  apply map_value_copy_no_array, Hno.
Qed.

(** C1.  Transaction atomicity, at an instance whose first field holds an
    array: after [begin], no action (or one action on the other field) and
    [rollback], the first field is [Null], not the array it held before the
    transaction.  The snapshot is made with [value_copy], which has no case
    for arrays. *)
Theorem rollback_loses_array_field :
  field_values
    (runtime_rollback_transaction
       (execute_actions (runtime_init []) (runtime_begin_transaction box_instance) []).1)
  = [VNull; VString "lid"]
  /\ field_values
       (runtime_rollback_transaction
          (execute_actions (runtime_init [])
             (runtime_begin_transaction box_instance)
             [NODE_ACTION_SET "label" (Some (NODE_LITERAL (VString "new")))]).1)
     = [VNull; VString "lid"]
  /\ field_values box_instance
     = [VArray [VNumber (Double.of_Z 1); VString "x"]; VString "lid"]
  /\ fields_allocated box_instance.
Proof. repeat split. Qed.

(** The same run on fields without arrays restores them. *)
Example rollback_plain_instance :
  field_values
    (runtime_rollback_transaction
       (execute_actions (runtime_init [])
          (runtime_begin_transaction plain_instance)
          [NODE_ACTION_SET "label" (Some (NODE_LITERAL (VString "new")))]).1)
  = field_values plain_instance.
Proof.
  apply rollback_restores_fields.
  - reflexivity.
  - repeat constructor.
Qed.

(** C2.  [value_copy] of an array is [Null], whatever the items: the copy is
    not equal to the value copied. *)
Theorem value_copy_array_is_null (items : list Value) :
  value_copy (VArray items) = VNull
  /\ value_copy (VArray items) <> VArray items.
Proof. split; [reflexivity | discriminate]. Qed.

(** ** The formatting buffer *)

Lemma substring_prefix_length (n : nat) : forall s : string,
  String.length (substring 0 n s) = Nat.min n (String.length s).
Proof.
  induction n as [|n IH]; intros [|c s]; simpl; try reflexivity.
  rewrite IH. reflexivity.
Qed.

Lemma substring_prefix_split (n : nat) : forall s : string,
  exists rest, s = substring 0 n s +:+ rest.
Proof.
  induction n as [|n IH]; intros [|c s]; simpl.
  - exists EmptyString. reflexivity.
  - exists (String c s). reflexivity.
  - exists EmptyString. reflexivity.
  - destruct (IH s) as [rest Hrest]. exists rest.
    change (String c s = String c (substring 0 n s +:+ rest)).
    f_equal. exact Hrest.
Qed.

Lemma substring_prefix_all (n : nat) : forall s : string,
  (String.length s <= n)%nat -> substring 0 n s = s.
Proof.
  induction n as [|n IH]; intros [|c s]; simpl; intros H;
    try reflexivity; try lia.
  rewrite IH by lia. reflexivity.
Qed.

Lemma snprintf_fits (formatted : string) :
  (String.length formatted <= 1023)%nat ->
  snprintf BUFFER_SIZE formatted = formatted.
Proof. intros H. unfold snprintf, BUFFER_SIZE. apply substring_prefix_all. exact H. Qed.

Lemma snprintf_truncates (formatted : string) :
  (1024 <= String.length formatted)%nat ->
  String.length (snprintf BUFFER_SIZE formatted) = 1023%nat
  /\ exists rest, formatted = snprintf BUFFER_SIZE formatted +:+ rest.
Proof.
  intros H. unfold snprintf, BUFFER_SIZE. split.
  - rewrite substring_prefix_length.
    change (1024 - 1)%nat with 1023%nat. lia.
  - apply substring_prefix_split.
Qed.

(** ** Binary operators *)

Lemma plus_join (op : TokenType) (left right : Value) :
  plus_operator op ->
  value_type left = TYPE_STRING \/ value_type right = TYPE_STRING ->
  binary_op_result op left right
  = VString (snprintf BUFFER_SIZE (join_with_space left right)).
Proof.
  intros [-> | ->] [H | H]; destruct left, right; simpl in H;
    try discriminate H; reflexivity.
Qed.

(** C3, as the claim words it, at two strings of 600 bytes: the result of [+]
    is not the two operands joined with a space, and the result of [&] is not
    their concatenation. *)
Lemma long_join_is_cut :
  binary_op_result TOKEN_PLUS
    (VString (repeat_char "a" 600)) (VString (repeat_char "b" 600))
  <> VString (repeat_char "a" 600 +:+ " " +:+ repeat_char "b" 600)
  /\ binary_op_result TOKEN_AMPERSAND
       (VString (repeat_char "a" 600)) (VString (repeat_char "b" 600))
     <> VString (repeat_char "a" 600 +:+ repeat_char "b" 600).
Proof.
  split; intros H;
    apply (f_equal (fun v => String.length (string_or_empty v))) in H;
    vm_compute in H; discriminate H.
Qed.

(** C3, amended.  The operator table, with the joins cut to the 1023 bytes
    the buffer holds: [+] adds two numbers, joins with one space when an
    operand is a string (an operand that is not a string printed as empty
    text), and is [Null] otherwise; [&] concatenates two strings and is
    [Null] otherwise; [-], [*], [/] compute on two numbers and are [Null]
    otherwise; every other operator is [Null]; 1/0 is infinity and 0/0 is
    NaN. *)
Theorem binary_op_table :
  (forall op l r, plus_operator op ->
     binary_op_result op (VNumber l) (VNumber r) = VNumber (Double.add l r))
  /\ (forall op left right, plus_operator op ->
        value_type left = TYPE_STRING \/ value_type right = TYPE_STRING ->
        binary_op_result op left right
        = VString (substring 0 1023
                     (string_or_empty left +:+ " " +:+ string_or_empty right)))
  /\ (forall op left right, plus_operator op ->
        value_type left <> TYPE_STRING -> value_type right <> TYPE_STRING ->
        value_type left <> TYPE_NUMBER \/ value_type right <> TYPE_NUMBER ->
        binary_op_result op left right = VNull)
  /\ (forall l r,
        binary_op_result TOKEN_AMPERSAND (VString l) (VString r)
        = VString (substring 0 1023 (l +:+ r)))
  /\ (forall left right,
        value_type left <> TYPE_STRING \/ value_type right <> TYPE_STRING ->
        binary_op_result TOKEN_AMPERSAND left right = VNull)
  /\ (forall l r,
        binary_op_result TOKEN_MINUS (VNumber l) (VNumber r) = VNumber (Double.sub l r)
        /\ binary_op_result TOKEN_TIMES (VNumber l) (VNumber r) = VNumber (Double.mul l r)
        /\ binary_op_result TOKEN_DIV (VNumber l) (VNumber r) = VNumber (Double.div l r))
  /\ (forall op left right, arithmetic_operator op ->
        value_type left <> TYPE_NUMBER \/ value_type right <> TYPE_NUMBER ->
        binary_op_result op left right = VNull)
  /\ (forall code left right,
        binary_op_result (TOKEN_OTHER code) left right = VNull)
  /\ Double.div (Double.of_Z 1) Double.zero = Double.infinity
  /\ Double.div Double.zero Double.zero = S754_nan.
Proof.
  repeat apply conj.
  - intros op l r [-> | ->]; reflexivity.
  - intros op left right Hop Hs. apply plus_join; assumption.
  - intros op left right [-> | ->] Hl Hr [H | H];
      destruct left, right; simpl in *; try reflexivity; congruence.
  - reflexivity.
  - intros left right [H | H]; destruct left, right; simpl in *; try reflexivity; congruence.
  - intros l r. repeat split.
  - intros op left right [-> | [-> | ->]] [H | H];
      destruct left, right; simpl in *; try reflexivity; congruence.
  - reflexivity.
  - reflexivity.
  - reflexivity.
Qed.

Lemma binary_op_table_witness :
  binary_op_result TOKEN_PLUS (VString "Hello") (VString "World")
  = VString "Hello World"
  /\ binary_op_result TOKEN_PLUS_OP (VString "Hello") (VNumber (Double.of_Z 1))
     = VString "Hello "
  /\ binary_op_result TOKEN_PLUS (VBoolean true) (VNumber (Double.of_Z 1)) = VNull
  /\ binary_op_result TOKEN_AMPERSAND (VString "Hello") VNull = VNull
  /\ binary_op_result TOKEN_DIV (VString "a") (VNumber (Double.of_Z 1)) = VNull.
Proof.
  destruct binary_op_table as (_ & Hjoin & Hnull & _ & Hamp & _ & Harith & _).
  split; [| split; [| split; [| split]]].
  - apply (Hjoin TOKEN_PLUS (VString "Hello") (VString "World")).
    + right. reflexivity.
    + left. reflexivity.
  - apply (Hjoin TOKEN_PLUS_OP (VString "Hello") (VNumber (Double.of_Z 1))).
    + left. reflexivity.
    + left. reflexivity.
  - apply (Hnull TOKEN_PLUS (VBoolean true) (VNumber (Double.of_Z 1))).
    + right. reflexivity.
    + simpl. discriminate.
    + simpl. discriminate.
    + left. simpl. discriminate.
  - apply (Hamp (VString "Hello") VNull). right. simpl. discriminate.
  - apply (Harith TOKEN_DIV (VString "a") (VNumber (Double.of_Z 1))).
    + right. right. reflexivity.
    + left. simpl. discriminate.
Defined.

(** The literal tests of the operator table. *)
Example operator_examples :
  binary_op_result TOKEN_PLUS (VNumber (Double.of_Z 3)) (VNumber (Double.of_Z 4))
  = VNumber (Double.of_Z 7)
  /\ binary_op_result TOKEN_AMPERSAND (VString "Hello") (VString "World")
     = VString "HelloWorld"
  /\ binary_op_result TOKEN_MINUS (VNumber (Double.of_Z 5)) (VNumber (Double.of_Z 2))
     = VNumber (Double.of_Z 3)
  /\ binary_op_result TOKEN_TIMES (VNumber (Double.of_Z 3)) (VNumber (Double.of_Z 4))
     = VNumber (Double.of_Z 12)
  /\ binary_op_result TOKEN_DIV (VNumber (Double.of_Z 10)) (VNumber (Double.of_Z 2))
     = VNumber (Double.of_Z 5)
  /\ binary_op_result TOKEN_DIV (VNumber (Double.of_Z 1)) (VNumber Double.zero)
     = VNumber Double.infinity.
Proof. repeat split. Qed.

(** C10.  Both joins go through a buffer of 1024 bytes.  A joined text of 1024
    bytes or more comes back as its first 1023 bytes; a joined text of at most
    1023 bytes comes back whole. *)
Theorem concatenation_is_bounded :
  (forall op left right joined,
     plus_operator op ->
     value_type left = TYPE_STRING \/ value_type right = TYPE_STRING ->
     joined = string_or_empty left +:+ " " +:+ string_or_empty right ->
     exists s,
       binary_op_result op left right = VString s
       /\ ((1024 <= String.length joined)%nat ->
           String.length s = 1023%nat /\ exists rest, joined = s +:+ rest)
       /\ ((String.length joined <= 1023)%nat -> s = joined))
  /\ (forall l r joined,
        joined = l +:+ r ->
        exists s,
          binary_op_result TOKEN_AMPERSAND (VString l) (VString r) = VString s
          /\ ((1024 <= String.length joined)%nat ->
              String.length s = 1023%nat /\ exists rest, joined = s +:+ rest)
          /\ ((String.length joined <= 1023)%nat -> s = joined)).
Proof.
  split.
  - intros op left right joined Hop Hs ->.
    exists (snprintf BUFFER_SIZE (join_with_space left right)).
    split; [apply plus_join; assumption|].
    split; [apply snprintf_truncates | apply snprintf_fits].
  - intros l r joined ->.
    exists (snprintf BUFFER_SIZE (l +:+ r)).
    split; [reflexivity|].
    split; [apply snprintf_truncates | apply snprintf_fits].
Qed.

Lemma concatenation_is_bounded_witness :
  (exists s,
     binary_op_result TOKEN_PLUS
       (VString (repeat_char "a" 600)) (VString (repeat_char "b" 600)) = VString s
     /\ String.length s = 1023%nat)
  /\ (exists s,
        binary_op_result TOKEN_AMPERSAND (VString "Hello") (VString "World") = VString s
        /\ s = "HelloWorld").
Proof.
  destruct concatenation_is_bounded as [Hplus Hamp].
  split.
  - destruct (Hplus TOKEN_PLUS (VString (repeat_char "a" 600))
                (VString (repeat_char "b" 600)) _
                (or_intror eq_refl) (or_introl eq_refl) eq_refl)
      as (s & Hs & Hcut & _).
    exists s. split; [exact Hs|].
    apply Hcut. vm_compute. repeat constructor.
  - destruct (Hamp "Hello" "World" _ eq_refl) as (s & Hs & _ & Hfit).
    exists s. split; [exact Hs|].
    apply Hfit. vm_compute. repeat constructor.
Defined.

(** ** Evaluation and the operation counter *)

(** Induction on nodes that reaches the operands of a binary operator. *)
Lemma ASTNode_operand_ind (P : ASTNode -> Prop) :
  (forall value, P (NODE_LITERAL value)) ->
  (forall name, P (NODE_IDENTIFIER name)) ->
  (forall op lhs rhs,
     (forall e, lhs = Some e -> P e) ->
     (forall e, rhs = Some e -> P e) ->
     P (NODE_BINARY_OP op lhs rhs)) ->
  (forall field value, P (NODE_ACTION_SET field value)) ->
  (forall name fields states whens, P (NODE_BLUEPRINT name fields states whens)) ->
  (forall kind, P (NODE_OTHER kind)) ->
  forall e, P e.
Proof.
  intros Hlit Hid Hbin Hset Hbp Hother.
  fix IH 1. intros [value | name | op lhs rhs | field value | name fields states whens | kind].
  - apply Hlit.
  - apply Hid.
  - apply Hbin.
    + destruct lhs as [l|]; intros e He; [|discriminate He].
      injection He as <-. apply IH.
    + destruct rhs as [r|]; intros e He; [|discriminate He].
      injection He as <-. apply IH.
  - apply Hset.
  - apply Hbp.
  - apply Hother.
Qed.

Lemma evaluation_frame_refl rt : evaluation_frame rt rt.
Proof. split; reflexivity || lia. Qed.

Lemma evaluation_frame_trans rt1 rt2 rt3 :
  evaluation_frame rt1 rt2 -> evaluation_frame rt2 rt3 -> evaluation_frame rt1 rt3.
Proof. intros [] []. split; congruence || lia. Qed.

Lemma count_operation_frame rt : evaluation_frame rt (count_operation rt).
Proof. split; simpl; reflexivity || lia. Qed.

Lemma fprintf_stderr_frame rt text : evaluation_frame rt (fprintf_stderr rt text).
Proof. split; simpl; reflexivity || lia. Qed.

(** The first step of every evaluation of a node: count, then test. *)
Lemma evaluate_node_exceeded rt e :
  operations_exceeded (count_operation rt) = true ->
  evaluate_node rt e
  = (VNull, fprintf_stderr (count_operation rt) MSG_OPERATIONS_EXCEEDED).
Proof. intros H. destruct e; simpl; rewrite H; reflexivity. Qed.

Lemma evaluate_node_binary_op rt op lhs rhs :
  operations_exceeded (count_operation rt) = false ->
  evaluate_node rt (NODE_BINARY_OP op lhs rhs)
  = let l := runtime_evaluate_expression (count_operation rt) lhs in
    let r := runtime_evaluate_expression l.2 rhs in
    (binary_op_result op l.1 r.1, r.2).
Proof.
  intros H. simpl. rewrite H.
  destruct lhs as [l|], rhs as [r|]; simpl.
  - destruct (evaluate_node (count_operation rt) l) as [lv rt1]. simpl.
    destruct (evaluate_node rt1 r) as [rv rt2]. reflexivity.
  - destruct (evaluate_node (count_operation rt) l) as [lv rt1]. reflexivity.
  - destruct (evaluate_node (count_operation rt) r) as [rv rt2]. reflexivity.
  - reflexivity.
Qed.

Lemma evaluate_node_frame e : forall rt,
  evaluation_frame rt (evaluate_node rt e).2
  /\ (operation_count rt < operation_count (evaluate_node rt e).2)%Z.
Proof.
  induction e as [value | name | op lhs rhs IHl IHr | field value
                 | name fields states whens | kind] using ASTNode_operand_ind;
    intros rt;
    (destruct (operations_exceeded (count_operation rt)) eqn:Hx;
     [ rewrite evaluate_node_exceeded by exact Hx; simpl;
       split; [split; simpl; reflexivity || lia | lia] | ]).
  - simpl. rewrite Hx. simpl. split; [apply count_operation_frame | lia].
  - simpl. rewrite Hx.
    destruct (runtime_get_variable (count_operation rt) name); simpl;
      (split; [apply count_operation_frame | lia]).
  - rewrite evaluate_node_binary_op by exact Hx. simpl.
    set (rt0 := count_operation rt).
    assert (H0 : evaluation_frame rt rt0
                 /\ (operation_count rt < operation_count rt0)%Z).
    { split; [apply count_operation_frame | simpl; lia]. }
    assert (H1 : evaluation_frame rt0 (runtime_evaluate_expression rt0 lhs).2).
    { destruct lhs as [l|]; simpl.
      - apply (IHl l eq_refl).
      - apply evaluation_frame_refl. }
    set (rt1 := (runtime_evaluate_expression rt0 lhs).2) in *.
    assert (H2 : evaluation_frame rt1 (runtime_evaluate_expression rt1 rhs).2).
    { destruct rhs as [r|]; simpl.
      - apply (IHr r eq_refl).
      - apply evaluation_frame_refl. }
    destruct H0 as [H0 Hlt]. split.
    + eapply evaluation_frame_trans; [exact H0|].
      eapply evaluation_frame_trans; [exact H1 | exact H2].
    + pose proof (ef_count _ _ H1). pose proof (ef_count _ _ H2). lia.
  - simpl. rewrite Hx. simpl. split; [apply count_operation_frame | lia].
  - simpl. rewrite Hx. simpl. split; [apply count_operation_frame | lia].
  - simpl. rewrite Hx. simpl. split; [apply count_operation_frame | lia].
Qed.

Lemma runtime_evaluate_expression_frame rt expr :
  evaluation_frame rt (runtime_evaluate_expression rt expr).2.
Proof.
  destruct expr as [e|]; simpl.
  - apply evaluate_node_frame.
  - apply evaluation_frame_refl.
Qed.

Lemma at_bound_exceeded rt :
  (max_operations (bounds rt) <= operation_count rt)%Z ->
  operations_exceeded (count_operation rt) = true.
Proof. intros H. unfold operations_exceeded. simpl. apply Z.ltb_lt. lia. Qed.

Lemma below_bound_not_exceeded rt :
  (operation_count rt < max_operations (bounds rt))%Z ->
  operations_exceeded (count_operation rt) = false.
Proof. intros H. unfold operations_exceeded. simpl. apply Z.ltb_ge. lia. Qed.

(** C5, as the claim words it, at ["a" + "b"] evaluated two steps short of
    the bound: the counter passes [max_operations] while the right operand
    is evaluated, the diagnostic is written, and the result of the whole
    expression is the string ["a "], not [Null]. *)
Lemma exceeded_result_not_null :
  exists rt',
    runtime_evaluate_expression busy_runtime (Some a_plus_b) = (VString "a ", rt')
    /\ (max_operations (bounds rt') < operation_count rt')%Z
    /\ stderr rt' = [MSG_OPERATIONS_EXCEEDED]
    /\ VString "a " <> VNull.
Proof.
  eexists. split; [reflexivity|].
  split; [reflexivity|]. split; [reflexivity | discriminate].
Qed.

(** C5, amended.  Every evaluation of a node first adds one to the operation
    counter, so the counter is larger afterwards, and it leaves the bounds
    alone.  When the counter is already at [max_operations] the node yields
    [Null] at once: nothing below it is evaluated and one diagnostic line goes
    to the error stream; so does every node evaluated after the counter has
    passed the bound.  Below the bound, a binary operator evaluates both
    operands and applies its operator to what they yield, also when an operand
    ran out of budget and yielded [Null]. *)
Theorem evaluation_budget (rt : Runtime) (e : ASTNode) :
  (operation_count rt < operation_count (runtime_evaluate_expression rt (Some e)).2)%Z
  /\ bounds (runtime_evaluate_expression rt (Some e)).2 = bounds rt
  /\ ((max_operations (bounds rt) <= operation_count rt)%Z ->
      runtime_evaluate_expression rt (Some e)
      = (VNull, fprintf_stderr (count_operation rt) MSG_OPERATIONS_EXCEEDED))
  /\ ((max_operations (bounds rt)
       < operation_count (runtime_evaluate_expression rt (Some e)).2)%Z ->
      forall e',
        (runtime_evaluate_expression
           (runtime_evaluate_expression rt (Some e)).2 (Some e')).1 = VNull)
  /\ ((operation_count rt < max_operations (bounds rt))%Z ->
      forall op lhs rhs, e = NODE_BINARY_OP op lhs rhs ->
        runtime_evaluate_expression rt (Some e)
        = let l := runtime_evaluate_expression (count_operation rt) lhs in
          let r := runtime_evaluate_expression l.2 rhs in
          (binary_op_result op l.1 r.1, r.2)).
Proof.
  destruct (evaluate_node_frame e rt) as [Hframe Hlt].
  simpl. split; [exact Hlt|]. split; [apply (ef_bounds _ _ Hframe)|].
  split; [| split].
  - intros H. apply evaluate_node_exceeded, at_bound_exceeded, H.
  - intros H e'. rewrite evaluate_node_exceeded; [reflexivity|].
    apply at_bound_exceeded. rewrite (ef_bounds _ _ Hframe). lia.
  - intros H op lhs rhs ->.
    apply evaluate_node_binary_op, below_bound_not_exceeded, H.
Qed.

Lemma evaluation_budget_witness :
  runtime_evaluate_expression
    (runtime_evaluate_expression busy_runtime (Some a_plus_b)).2 (Some a_plus_b)
  = (VNull,
     fprintf_stderr
       (count_operation (runtime_evaluate_expression busy_runtime (Some a_plus_b)).2)
       MSG_OPERATIONS_EXCEEDED)
  /\ runtime_evaluate_expression busy_runtime (Some a_plus_b)
     = (binary_op_result TOKEN_PLUS (VString "a") VNull,
        (runtime_evaluate_expression busy_runtime (Some a_plus_b)).2).
Proof.
  split.
  - apply (evaluation_budget
             (runtime_evaluate_expression busy_runtime (Some a_plus_b)).2 a_plus_b).
    vm_compute. discriminate.
  - destruct (evaluation_budget busy_runtime a_plus_b) as (_ & _ & _ & _ & H).
    rewrite (H ltac:(reflexivity) TOKEN_PLUS
               (Some (NODE_LITERAL (VString "a")))
               (Some (NODE_LITERAL (VString "b"))) eq_refl).
    reflexivity.
Defined.

(** ** Conditions *)

(** C8.  For a condition that is present, [runtime_evaluate_condition] is
    true exactly when the expression evaluates to [Boolean(true)] or to a
    number that compares unequal to zero; [Null], strings and arrays give
    false; and it leaves the runtime as the evaluation of the expression
    does. *)
Theorem condition_truth (rt : Runtime) (e : ASTNode) :
  ((runtime_evaluate_condition rt (Some e)).1 = true <->
     (runtime_evaluate_expression rt (Some e)).1 = VBoolean true
     \/ exists x, (runtime_evaluate_expression rt (Some e)).1 = VNumber x
                  /\ Double.neq x Double.zero = true)
  /\ ((runtime_evaluate_expression rt (Some e)).1 = VNull ->
      (runtime_evaluate_condition rt (Some e)).1 = false)
  /\ (forall s, (runtime_evaluate_expression rt (Some e)).1 = VString s ->
      (runtime_evaluate_condition rt (Some e)).1 = false)
  /\ (runtime_evaluate_condition rt (Some e)).2
     = (runtime_evaluate_expression rt (Some e)).2.
Proof.
  unfold runtime_evaluate_condition.
  destruct (runtime_evaluate_expression rt (Some e)) as [v rt']. simpl.
  repeat split.
  - intros H. destruct v as [x | s | b | | items]; try discriminate H.
    + right. exists x. split; [reflexivity | exact H].
    + left. f_equal. exact H.
  - intros [-> | (x & -> & Hx)]; [reflexivity | exact Hx].
  - intros ->. reflexivity.
  - intros s ->. reflexivity.
Qed.

Lemma condition_truth_witness :
  (runtime_evaluate_condition (runtime_init []) (Some (NODE_IDENTIFIER "unbound"))).1
  = false.
Proof.
  apply (condition_truth (runtime_init []) (NODE_IDENTIFIER "unbound")).
  reflexivity.
Defined.

(** A condition that is absent is true, and nothing is evaluated. *)
Lemma condition_absent rt : runtime_evaluate_condition rt None = (true, rt).
Proof. reflexivity. Qed.

(** Not-a-number compares unequal to zero, negative zero compares equal. *)
Example condition_on_numbers :
  Double.neq S754_nan Double.zero = true
  /\ Double.neq (S754_zero true) Double.zero = false
  /\ Double.neq (Double.of_Z 2) Double.zero = true.
Proof. repeat split. Qed.

(** ** Execution of a top-level node *)

(** C4, as the claim words it, at an identifier node: the result is a
    success and carries no message. *)
Lemma execute_identifier_succeeds :
  runtime_execute (runtime_init []) (Some (NODE_IDENTIFIER "x"))
  = Returns ({| success := true; message := None; result_value := VNull |},
             runtime_init [])
  /\ is_blueprint_node (NODE_IDENTIFIER "x") = false.
Proof. split; reflexivity. Qed.

(** C4, amended.  For a node that is present and is not a blueprint
    definition, [runtime_execute] returns a success without a message and
    with a [Null] value, and leaves the runtime as it was. *)
Theorem execute_other_node (rt : Runtime) (node : ASTNode) :
  is_blueprint_node node = false ->
  runtime_execute rt (Some node)
  = Returns ({| success := true; message := None; result_value := VNull |}, rt).
Proof. intros H. unfold runtime_execute. rewrite H. reflexivity. Qed.

Lemma execute_other_node_witness :
  runtime_execute busy_runtime (Some a_plus_b)
  = Returns ({| success := true; message := None; result_value := VNull |},
             busy_runtime).
Proof. apply (execute_other_node busy_runtime a_plus_b). reflexivity. Defined.

(** The only failure [runtime_execute] reports is the absent node. *)
Lemma execute_null rt :
  runtime_execute rt None
  = Returns ({| success := false;
                message := Some "No AST node to execute";
                result_value := VNull |}, rt).
Proof. reflexivity. Qed.

Lemma execute_blueprint rt name fields states whens :
  (blueprint_count rt < BLUEPRINT_SLOTS)%nat ->
  runtime_execute rt (Some (NODE_BLUEPRINT name fields states whens))
  = Returns ({| success := true;
                message := Some "Blueprint defined successfully";
                result_value := VNull |},
             with_blueprints rt
               (blueprints rt ++ [mkBlueprint name fields states whens])).
Proof.
  intros H. unfold runtime_execute, runtime_define_blueprint. simpl.
  destruct (decide _) as [_|Hn]; [reflexivity | contradiction].
Qed.

(** ** When handlers *)

(** C6.  With no handler of the given name in the instance's blueprint,
    [runtime_execute_when] returns the failure ["When clause not found"] and
    hands back the instance and the runtime as they were: no transaction is
    opened, and the fields, the current state and the variables are
    untouched. *)
Theorem execute_when_unknown (rt : Runtime) (inst : Instance) (name : string) :
  Forall (fun w : WhenDecl ASTNode => when_name w <> name)
         (bp_whens (blueprint inst)) ->
  runtime_execute_when rt inst name = (RESULT_NOT_FOUND, inst, rt)
  /\ success RESULT_NOT_FOUND = false
  /\ (exists text, message RESULT_NOT_FOUND = Some text
                   /\ index 0 "not found" text = Some 12%nat).
Proof.
  intros H. unfold runtime_execute_when, find_when.
  apply (list_find_None (fun w : WhenDecl ASTNode => when_name w = name)) in H.
  rewrite H. repeat split.
  eexists. split; reflexivity.
Qed.

Lemma execute_when_unknown_witness :
  runtime_execute_when busy_runtime plain_instance "missing"
  = (RESULT_NOT_FOUND, plain_instance, busy_runtime).
Proof.
  apply (execute_when_unknown busy_runtime plain_instance "missing").
  repeat constructor; discriminate.
Defined.

Lemma execute_actions_app rt inst acts1 acts2 :
  execute_actions rt inst (acts1 ++ acts2)
  = execute_actions (execute_actions rt inst acts1).2
                    (execute_actions rt inst acts1).1 acts2.
Proof.
  revert rt inst. induction acts1 as [|a acts1 IH]; intros rt inst; simpl.
  - reflexivity.
  - destruct (execute_action rt inst a) as [inst1 rt1]. apply IH.
Qed.

(** Actions of another kind than field-set do nothing. *)
Lemma execute_actions_no_set rt inst acts :
  Forall (fun a => is_action_set a = false) acts ->
  execute_actions rt inst acts = (inst, rt).
Proof.
  induction 1 as [|a acts Ha _ IH]; simpl; [reflexivity|].
  destruct a; simpl in Ha; try discriminate Ha; simpl; exact IH.
Qed.

(** C7.  When the handler found for the name has one field-set action, and
    that action names a field the blueprint does not declare,
    [runtime_execute_when] returns a success, the transaction is closed by a
    commit, the field vector is the one before the call, and the value of the
    right-hand side is stored nowhere: of its evaluation only the effect on
    the runtime remains. *)
Theorem execute_when_unknown_field
    (rt : Runtime) (inst : Instance) (name field : string)
    (k : nat) (when : WhenDecl ASTNode) (value : option ASTNode)
    (before after : list ASTNode) :
  find_when inst name = Some (k, when) ->
  actions when = before ++ NODE_ACTION_SET field value :: after ->
  Forall (fun a => is_action_set a = false) before ->
  Forall (fun a => is_action_set a = false) after ->
  Forall (fun f : FieldDecl ASTNode => field_name f <> field)
         (bp_fields (blueprint inst)) ->
  (runtime_execute_when rt inst name).1.1.(success) = true
  /\ (runtime_execute_when rt inst name).1.2 = runtime_commit_transaction inst
  /\ field_values (runtime_execute_when rt inst name).1.2 = field_values inst
  /\ in_transaction (runtime_execute_when rt inst name).1.2 = false
  /\ field_snapshot (runtime_execute_when rt inst name).1.2 = None
  /\ (runtime_execute_when rt inst name).2
     = (runtime_evaluate_expression rt value).2.
Proof.
  intros Hfind Hacts Hbefore Hafter Hfields. unfold runtime_execute_when.
  rewrite Hfind, Hacts, execute_actions_app.
  rewrite (execute_actions_no_set _ _ _ Hbefore). simpl.
  destruct (runtime_evaluate_expression rt value) as [v rt'].
  rewrite set_field_unknown by exact Hfields.
  rewrite (execute_actions_no_set _ _ _ Hafter). simpl.
  repeat split.
Qed.

Lemma execute_when_unknown_field_witness :
  field_values (runtime_execute_when busy_runtime plain_instance "stray").1.2
  = field_values plain_instance
  /\ (runtime_execute_when busy_runtime plain_instance "stray").1.1.(success) = true.
Proof.
  destruct (execute_when_unknown_field busy_runtime plain_instance "stray"
              "Nonexistent" 1
              (mkWhen "stray"
                 [NODE_ACTION_SET "Nonexistent"
                    (Some (NODE_LITERAL (VNumber (Double.of_Z 5))))]
                 (Some "done"))
              (Some (NODE_LITERAL (VNumber (Double.of_Z 5)))) [] [])
    as (Hs & _ & Hf & _).
  - reflexivity.
  - reflexivity.
  - constructor.
  - constructor.
  - repeat constructor; discriminate.
  - split; [exact Hf | exact Hs].
Defined.

(** ** The blueprint registry *)

Lemma registry_extends_refl rt : registry_extends rt rt.
Proof. exists []. symmetry. apply app_nil_r. Qed.

Lemma registry_extends_trans rt1 rt2 rt3 :
  registry_extends rt1 rt2 -> registry_extends rt2 rt3 -> registry_extends rt1 rt3.
Proof.
  intros [l1 H1] [l2 H2]. exists (l1 ++ l2).
  rewrite H2, H1. symmetry. apply app_assoc.
Qed.

Lemma evaluation_frame_registry rt rt' :
  evaluation_frame rt rt' -> registry_extends rt rt'.
Proof. intros H. exists []. rewrite (ef_blueprints _ _ H). symmetry. apply app_nil_r. Qed.

Lemma initialize_fields_frame fields : forall rt,
  evaluation_frame rt (initialize_fields rt fields).2
  /\ length (initialize_fields rt fields).1 = length fields.
Proof.
  induction fields as [|f fields IH]; intros rt; simpl.
  - split; [apply evaluation_frame_refl | reflexivity].
  - pose proof (runtime_evaluate_expression_frame rt (initial_value f)) as H1.
    destruct (runtime_evaluate_expression rt (initial_value f)) as [v rt1].
    destruct (IH rt1) as [H2 Hlen].
    destruct (initialize_fields rt1 fields) as [vs rt2]. simpl in *.
    split; [eapply evaluation_frame_trans; eassumption | congruence].
Qed.

(** Every operation on the registry stores after the definitions already
    there. *)
Lemma define_blueprint_extends rt node r rt' :
  runtime_define_blueprint rt node = Returns (r, rt') -> registry_extends rt rt'.
Proof.
  unfold runtime_define_blueprint. destruct node;
    try (intros [= <- <-]; apply registry_extends_refl).
  destruct (decide _); [|discriminate].
  intros [= <- <-]. eexists. reflexivity.
Qed.

Lemma create_instance_extends rt name r rt' :
  runtime_create_instance rt name = Returns (r, rt') -> registry_extends rt rt'.
Proof.
  unfold runtime_create_instance.
  destruct (find_blueprint rt name) as [[i bp]|];
    [| intros [= <- <-]; apply registry_extends_refl].
  destruct (initialize_fields_frame (bp_fields bp) rt) as [Hframe _].
  destruct (initialize_fields rt (bp_fields bp)) as [values rt1]. simpl in Hframe.
  destruct (decide _); [|discriminate].
  intros [= <- <-]. exists []. simpl.
  rewrite (ef_blueprints _ _ Hframe). symmetry. apply app_nil_r.
Qed.

(** The lookup stops at the first entry of the name, whatever is stored
    after it. *)
Lemma find_blueprint_first rt before bp after :
  blueprints rt = before ++ bp :: after ->
  Forall (fun b => bp_name b <> bp_name bp) before ->
  find_blueprint rt (bp_name bp) = Some (length before, bp).
Proof.
  intros Hreg Hbefore. unfold find_blueprint. rewrite Hreg.
  apply list_find_Some. split; [|split].
  - rewrite lookup_app_r by lia. rewrite Nat.sub_diag. reflexivity.
  - reflexivity.
  - intros j b Hj Hlt. rewrite lookup_app_l in Hj by exact Hlt.
    rewrite Forall_lookup in Hbefore. exact (Hbefore j b Hj).
Qed.

(** An instance is created from the blueprint the lookup finds. *)
Lemma create_instance_found rt name i bp :
  find_blueprint rt name = Some (i, bp) ->
  (instance_count rt < INSTANCE_SLOTS)%nat ->
  exists inst rt',
    runtime_create_instance rt name = Returns (Some inst, rt')
    /\ blueprint inst = bp
    /\ fields_allocated inst
    /\ in_transaction inst = false
    /\ field_snapshot inst = None.
Proof.
  intros Hfind Hslots. unfold runtime_create_instance. rewrite Hfind.
  destruct (initialize_fields_frame (bp_fields bp) rt) as [Hframe Hlen].
  destruct (initialize_fields rt (bp_fields bp)) as [values rt1].
  simpl in Hframe, Hlen.
  rewrite (ef_instances _ _ Hframe).
  destruct (decide _) as [_|Hn]; [|contradiction].
  eexists _, _. split; [reflexivity|]. repeat split. exact Hlen.
Qed.

Lemma create_instance_not_found rt name :
  find_blueprint rt name = None ->
  runtime_create_instance rt name = Returns (None, rt).
Proof. intros H. unfold runtime_create_instance. rewrite H. reflexivity. Qed.

(** C9.  Two definitions of one name, the first of that name in the runtime,
    are both stored, in the order of definition; from then on, whatever is
    defined later, the lookup by that name finds the slot of the first
    definition, and an instance created by that name has the first definition
    as its blueprint. *)
Theorem redefinition_shadowing
    (rt : Runtime) (name : string)
    (fields1 fields2 : list (FieldDecl ASTNode))
    (states1 states2 : list string)
    (whens1 whens2 : list (WhenDecl ASTNode)) :
  (blueprint_count rt + 2 <= BLUEPRINT_SLOTS)%nat ->
  Forall (fun b => bp_name b <> name) (blueprints rt) ->
  let bp1 := mkBlueprint name fields1 states1 whens1 in
  let bp2 := mkBlueprint name fields2 states2 whens2 in
  let rt1 := with_blueprints rt (blueprints rt ++ [bp1]) in
  let rt2 := with_blueprints rt (blueprints rt ++ [bp1; bp2]) in
  runtime_define_blueprint rt (NODE_BLUEPRINT name fields1 states1 whens1)
  = Returns (Some bp1, rt1)
  /\ runtime_define_blueprint rt1 (NODE_BLUEPRINT name fields2 states2 whens2)
     = Returns (Some bp2, rt2)
  /\ forall rt3, registry_extends rt2 rt3 ->
       find_blueprint rt3 name = Some (blueprint_count rt, bp1)
       /\ ((instance_count rt3 < INSTANCE_SLOTS)%nat ->
           exists inst rt4,
             runtime_create_instance rt3 name = Returns (Some inst, rt4)
             /\ blueprint inst = bp1).
Proof.
  intros Hslots Hfresh bp1 bp2 rt1 rt2.
  unfold BLUEPRINT_SLOTS in Hslots.
  split; [| split].
  - unfold runtime_define_blueprint.
    rewrite decide_True by (unfold BLUEPRINT_SLOTS; lia). reflexivity.
  - unfold runtime_define_blueprint.
    rewrite decide_True.
    + unfold rt1, rt2, with_blueprints. simpl.
      rewrite <- app_assoc. reflexivity.
    + unfold rt1, blueprint_count, BLUEPRINT_SLOTS in *. simpl.
      rewrite length_app. simpl. lia.
  - intros rt3 [later Hlater]. simpl in Hlater.
    assert (Hfind : find_blueprint rt3 name = Some (blueprint_count rt, bp1)).
    { apply (find_blueprint_first rt3 (blueprints rt) bp1 ([bp2] ++ later)).
      - rewrite Hlater. rewrite <- !app_assoc. reflexivity.
      - exact Hfresh. }
    split; [exact Hfind|].
    intros Hinst.
    destruct (create_instance_found rt3 name _ _ Hfind Hinst)
      as (inst & rt4 & Hcreate & Hbp & _).
    exists inst, rt4. split; assumption.
Qed.

Lemma redefinition_shadowing_witness :
  exists inst rt4,
    runtime_create_instance
      (with_blueprints (runtime_init [])
         [mkBlueprint "Box" [mkField "a" None] [] [];
          mkBlueprint "Box" [mkField "b" None; mkField "c" None] [] []])
      "Box"
    = Returns (Some inst, rt4)
    /\ blueprint inst = mkBlueprint "Box" [mkField "a" None] [] [].
Proof.
  destruct (redefinition_shadowing (runtime_init []) "Box"
              [mkField "a" None] [mkField "b" None; mkField "c" None]
              [] [] [] [])
    as (_ & _ & Hlater).
  - vm_compute. repeat constructor.
  - constructor.
  - destruct (Hlater _ (registry_extends_refl _)) as [_ Hcreate].
    apply Hcreate. vm_compute. repeat constructor.
Defined.

(** ** Copies in memory *)

Lemma cell_items_ind (P : Memory.cell -> Prop) :
  (forall n, P (Memory.CNumber n)) ->
  (forall p, P (Memory.CString p)) ->
  (forall b, P (Memory.CBoolean b)) ->
  P Memory.CNull ->
  (forall items, Forall P items -> P (Memory.CArray items)) ->
  forall v, P v.
Proof.
  intros Hn Hs Hb Hnull Harr. fix IH 1. intros [n | p | b | | items].
  - apply Hn.
  - apply Hs.
  - apply Hb.
  - apply Hnull.
  - apply Harr. induction items as [|i items IHitems]; constructor.
    + apply IH.
    + exact IHitems.
Qed.

(** The contents of a value do not depend on a block it cannot reach: a
    block that is not allocated while the value has contents. *)
Lemma contents_insert_fresh (h : Memory.heap) (q : Memory.address) (s : string) v :
  h !! q = None ->
  forall a, Memory.contents h v = Some a ->
            Memory.contents (<[q := s]> h) v = Some a.
Proof.
  intros Hq. induction v as [n | p | b | | items IH] using cell_items_ind;
    intros a Ha; simpl in *; try exact Ha.
  - destruct (h !! p) as [t|] eqn:Hp; [|discriminate Ha].
    rewrite lookup_insert_ne by congruence. rewrite Hp. exact Ha.
  - destruct (mapM (Memory.contents h) items) as [vs|] eqn:Hvs; [|discriminate Ha].
    assert (Hvs' : mapM (Memory.contents (<[q := s]> h)) items = Some vs).
    { apply mapM_Some. apply mapM_Some in Hvs.
      clear Ha. induction Hvs as [|i x items vs Hi _ IHvs]; [constructor|].
      inversion IH as [|? ? IHi IHrest]; subst.
      constructor; [apply IHi, Hi | apply IHvs, IHrest]. }
    rewrite Hvs'. exact Ha.
Qed.

Lemma strdup_fresh (h : Memory.heap) (s : string) :
  h !! (Memory.strdup h s).1 = None
  /\ (Memory.strdup h s).2 !! (Memory.strdup h s).1 = Some s.
Proof.
  unfold Memory.strdup. simpl. split.
  - apply not_elem_of_dom, is_fresh.
  - apply lookup_insert_eq.
Qed.

(** X19.  [Memory.value_copy] computes [value_copy] on the contents, in a block of
    its own for a string, and leaves the contents of the original as they
    were. *)
Lemma memory_copy_refines (h : Memory.heap) (v : Memory.cell) (a : Value) :
  Memory.contents h v = Some a ->
  exists c h',
    Memory.value_copy h v = Some (c, h')
    /\ Memory.contents h' c = Some (value_copy a)
    /\ Memory.contents h' v = Some a.
Proof.
  intros Ha. destruct v as [n | p | b | | items]; simpl in *.
  - injection Ha as <-. eexists _, _. repeat split.
  - destruct (h !! p) as [s|] eqn:Hp; [|discriminate Ha].
    injection Ha as <-.
    destruct (strdup_fresh h s) as [Hfresh Hnew].
    eexists _, _. split; [reflexivity|]. simpl. split.
    + rewrite lookup_insert_eq. reflexivity.
    + rewrite lookup_insert_ne; [rewrite Hp; reflexivity|].
      intros Heq. simpl in Hfresh. rewrite Heq in Hfresh. congruence.
  - injection Ha as <-. eexists _, _. repeat split.
  - injection Ha as <-. eexists _, _. repeat split.
  - destruct (mapM (Memory.contents h) items) as [vs|] eqn:Hvs; [|discriminate Ha].
    injection Ha as <-. eexists _, _. split; [reflexivity|]. simpl.
    split; [reflexivity|]. rewrite Hvs. reflexivity.
Qed.

(** X20.  Independence of the copy of a value that is not an array: the copy of a
    string lives at another address, and neither releasing the copy nor
    overwriting its block changes the contents of the original. *)
Lemma memory_copy_independent (h h' : Memory.heap) (v c : Memory.cell) (a : Value) :
  Memory.contents h v = Some a ->
  Memory.value_copy h v = Some (c, h') ->
  Memory.contents (Memory.value_free h' c) v = Some a
  /\ (forall q s, c = Memory.CString q ->
        v <> Memory.CString q
        /\ Memory.contents (<[q := s]> h') v = Some a).
Proof.
  intros Ha Hcopy. destruct v as [n | p | b | | items]; simpl in Hcopy.
  - injection Hcopy as <- <-. split; [exact Ha | discriminate].
  - simpl in Ha. destruct (h !! p) as [t|] eqn:Hp; [|discriminate Hcopy].
    injection Hcopy as <- <-.
    assert (Hfresh : h !! fresh (dom h) = None)
      by apply not_elem_of_dom, is_fresh.
    split.
    + simpl. rewrite delete_insert_eq, delete_id by exact Hfresh.
      rewrite Hp. exact Ha.
    + intros q s [= <-]. split; [congruence|].
      rewrite insert_insert_eq.
      apply contents_insert_fresh; [exact Hfresh|].
      simpl. rewrite Hp. exact Ha.
  - injection Hcopy as <- <-. split; [exact Ha | discriminate].
  - injection Hcopy as <- <-. split; [exact Ha | discriminate].
  - injection Hcopy as <- <-. split; [exact Ha | discriminate].
Qed.

(** In memory too, the copy of an array is [Null]. *)
Example memory_copy_array (h : Memory.heap) (items : list Memory.cell) :
  Memory.value_copy h (Memory.CArray items) = Some (Memory.CNull, h).
Proof. reflexivity. Qed.

(** ** The variable table *)

Lemma list_find_insert_same {A : Type} (P : A -> Prop) `{!forall x, Decision (P x)}
    (l : list A) (i : nat) (x y : A) :
  l !! i = Some y -> ~ P x -> ~ P y ->
  list_find P (<[i := x]> l) = list_find P l.
Proof.
  revert i. induction l as [|z l IH]; intros i Hi Hx Hy; [reflexivity|].
  destruct i as [|i]; simpl in *.
  - injection Hi as ->. rewrite !decide_False by assumption. reflexivity.
  - destruct (decide (P z)); [reflexivity|].
    rewrite (IH i Hi Hx Hy). reflexivity.
Qed.

Lemma get_variable_found rt name i slot :
  list_find (fun s : string * Value => s.1 = name) (variables rt) = Some (i, slot) ->
  runtime_get_variable rt name = Some slot.2.
Proof.
  intros H. unfold runtime_get_variable. rewrite H. destruct slot; reflexivity.
Qed.

Lemma get_variable_none rt name :
  runtime_get_variable rt name = None <->
  list_find (fun s : string * Value => s.1 = name) (variables rt) = None.
Proof.
  unfold runtime_get_variable.
  destruct (list_find _ _) as [[i [k x]]|]; split; intros H; congruence.
Qed.

(** What [runtime_set_variable] leaves in the table. *)
Lemma set_variable_table (MAX_VARIABLES : nat) rt name value rt' :
  runtime_set_variable MAX_VARIABLES rt name value = Returns rt' ->
  rt' = with_variables rt (variables rt')
  /\ ((exists i old,
         list_find (fun s : string * Value => s.1 = name) (variables rt)
         = Some (i, (name, old))
         /\ variables rt' = <[i := (name, value)]> (variables rt))
      \/ (list_find (fun s : string * Value => s.1 = name) (variables rt) = None
          /\ variables rt' = variables rt ++ [(name, value)])).
Proof.
  unfold runtime_set_variable.
  destruct (list_find _ _) as [[i [k old]]|] eqn:Hfind.
  - intros [= <-]. split; [reflexivity|]. left.
    pose proof Hfind as Hk. apply list_find_Some in Hk as (_ & Hk & _).
    simpl in Hk. subst k. exists i, old. split; reflexivity.
  - destruct (decide _); [|discriminate].
    intros [= <-]. split; [reflexivity|]. right. split; reflexivity.
Qed.

Lemma set_variable_lookup (MAX_VARIABLES : nat) rt name value rt' other :
  runtime_set_variable MAX_VARIABLES rt name value = Returns rt' ->
  runtime_get_variable rt' name = Some value
  /\ (other <> name ->
      runtime_get_variable rt' other = runtime_get_variable rt other).
Proof.
  intros Hset.
  destruct (set_variable_table _ _ _ _ _ Hset)
    as [_ [(i & old & Hfind & Hvars) | [Hfind Hvars]]].
  - pose proof Hfind as Hspec. apply list_find_Some in Hspec as (Hi & _ & Hleast).
    split.
    + apply (get_variable_found rt' name i (name, value)).
      rewrite Hvars. apply list_find_Some. split; [|split].
      * apply list_lookup_insert_eq. eapply lookup_lt_Some, Hi.
      * reflexivity.
      * intros j y Hj Hlt. rewrite list_lookup_insert_ne in Hj by lia.
        exact (Hleast j y Hj Hlt).
    + intros Hne. unfold runtime_get_variable. rewrite Hvars.
      rewrite (list_find_insert_same _ _ i (name, value) (name, old) Hi);
        [reflexivity | |]; simpl; congruence.
  - split.
    + apply (get_variable_found rt' name (length (variables rt)) (name, value)).
      rewrite Hvars. apply list_find_Some. split; [|split].
      * rewrite lookup_app_r by lia. rewrite Nat.sub_diag. reflexivity.
      * reflexivity.
      * intros j y Hj Hlt. rewrite lookup_app_l in Hj by exact Hlt.
        apply list_find_None in Hfind. rewrite Forall_lookup in Hfind.
        exact (Hfind j y Hj).
    + intros Hne. unfold runtime_get_variable. rewrite Hvars.
      destruct (list_find (fun s : string * Value => s.1 = other) (variables rt))
        as [[j y]|] eqn:Hother.
      * rewrite (list_find_app_l _ _ _ _ _ Hother). reflexivity.
      * rewrite (list_find_app_r _ _ _ Hother). simpl.
        rewrite decide_False by congruence. reflexivity.
Qed.

(** X1.  Insert and lookup.  After a name is set, [runtime_get_variable] returns
    the value set for that name, and for every other name what it returned
    before. *)
Theorem set_then_get (MAX_VARIABLES : nat) rt name value rt' other :
  runtime_set_variable MAX_VARIABLES rt name value = Returns rt' ->
  runtime_get_variable rt' name = Some value
  /\ (other <> name ->
      runtime_get_variable rt' other = runtime_get_variable rt other).
Proof. apply set_variable_lookup. Qed.

Lemma set_then_get_witness :
  exists rt',
    runtime_set_variable 256 busy_runtime "x" (VString "one") = Returns rt'
    /\ runtime_get_variable rt' "x" = Some (VString "one")
    /\ runtime_get_variable rt' "y" = runtime_get_variable busy_runtime "y".
Proof.
  eexists. split; [reflexivity|].
  destruct (set_then_get 256 busy_runtime "x" (VString "one") _ "y" eq_refl)
    as [Hx Hy].
  split; [exact Hx | apply Hy; discriminate].
Defined.

(** X2.  A set never adds a second slot for a name: on a table whose names are
    distinct, overwriting keeps the number of slots, a new name adds one slot
    at the end, and the names stay distinct.  Nothing but the table
    changes. *)
Theorem set_variable_slots (MAX_VARIABLES : nat) rt name value rt' :
  names_unique rt ->
  runtime_set_variable MAX_VARIABLES rt name value = Returns rt' ->
  names_unique rt'
  /\ (is_Some (runtime_get_variable rt name) ->
      variable_count rt' = variable_count rt)
  /\ (runtime_get_variable rt name = None ->
      variables rt' = variables rt ++ [(name, value)])
  /\ rt' = with_variables rt (variables rt').
Proof.
  intros Huniq Hset.
  destruct (set_variable_table _ _ _ _ _ Hset)
    as [Hframe [(i & old & Hfind & Hvars) | [Hfind Hvars]]].
  - pose proof Hfind as Hspec. apply list_find_Some in Hspec as (Hi & _ & _).
    assert (Hnames : fst <$> variables rt' = fst <$> variables rt).
    { rewrite Hvars, list_fmap_insert. simpl.
      apply list_insert_id. rewrite list_lookup_fmap, Hi. reflexivity. }
    split; [| split; [| split]].
    + unfold names_unique. rewrite Hnames. exact Huniq.
    + intros _. unfold variable_count. rewrite Hvars. apply length_insert.
    + intros Hnone. apply get_variable_none in Hnone. congruence.
    + exact Hframe.
  - split; [| split; [| split]].
    + unfold names_unique in *. rewrite Hvars, fmap_app. simpl.
      apply NoDup_app. split; [exact Huniq|]. split; [|apply NoDup_singleton].
      intros k Hk Hin. apply list_elem_of_singleton in Hin. subst k.
      apply list_elem_of_fmap in Hk as ([k x] & Hkx & Hmem). simpl in Hkx. subst k.
      apply list_find_None in Hfind. rewrite Forall_forall in Hfind.
      apply (Hfind _ Hmem). reflexivity.
    + intros [x Hx]. apply get_variable_none in Hfind. congruence.
    + intros _. exact Hvars.
    + exact Hframe.
Qed.

Lemma set_variable_slots_witness :
  exists rt',
    runtime_set_variable 256 busy_runtime "x" (VString "one") = Returns rt'
    /\ names_unique rt'
    /\ variables rt' = [("x", VString "one")].
Proof.
  eexists. split; [reflexivity|].
  destruct (set_variable_slots 256 busy_runtime "x" (VString "one") _
              (NoDup_nil_2 : names_unique busy_runtime) eq_refl)
    as (Hu & _ & Happ & _).
  split; [exact Hu | apply Happ; reflexivity].
Defined.

(** X3.  The only set that goes past the arrays is one of a new name on a full
    table; an overwrite never does. *)
Theorem set_variable_overrun (MAX_VARIABLES : nat) rt name value :
  runtime_set_variable MAX_VARIABLES rt name value = Overrun <->
  runtime_get_variable rt name = None
  /\ (MAX_VARIABLES <= variable_count rt)%nat.
Proof.
  unfold runtime_set_variable. rewrite get_variable_none.
  destruct (list_find _ _) as [[i slot]|].
  - split; [discriminate | intros [H _]; discriminate H].
  - destruct (decide _) as [Hlt|Hge].
    + split; [discriminate | intros [_ H]; lia].
    + split; [intros _; split; [reflexivity | lia] | reflexivity].
Qed.

(** ** What an evaluation yields and what it costs *)

Lemma binary_op_result_kind op l r :
  value_type (binary_op_result op l r) = TYPE_NUMBER
  \/ value_type (binary_op_result op l r) = TYPE_STRING
  \/ value_type (binary_op_result op l r) = TYPE_NULL.
Proof. destruct op, l, r; simpl; auto. Qed.

Lemma evaluate_node_no_array rt e : is_array (evaluate_node rt e).1 = false.
Proof.
  destruct (operations_exceeded (count_operation rt)) eqn:Hx.
  - rewrite evaluate_node_exceeded by exact Hx. reflexivity.
  - destruct e; try (simpl; rewrite Hx; reflexivity).
    + simpl; rewrite Hx. simpl. apply value_copy_never_array.
    + simpl; rewrite Hx.
      destruct (runtime_get_variable _ _); simpl;
        [apply value_copy_never_array | reflexivity].
    + rewrite evaluate_node_binary_op by exact Hx. simpl.
      destruct (binary_op_result_kind op
                  (runtime_evaluate_expression (count_operation rt) left).1
                  (runtime_evaluate_expression
                     (runtime_evaluate_expression (count_operation rt) left).2
                     right).1) as [H | [H | H]];
        destruct (binary_op_result _ _ _); simpl in *; congruence.
Qed.

Lemma evaluate_expression_no_array rt expr :
  is_array (runtime_evaluate_expression rt expr).1 = false.
Proof. destruct expr; simpl; [apply evaluate_node_no_array | reflexivity]. Qed.

(** X5.  No evaluation yields an array, and a binary operator yields a number, a
    string or [Null], never a boolean. *)
Theorem evaluation_value_kinds (rt : Runtime) (expr : option ASTNode) :
  value_type (runtime_evaluate_expression rt expr).1 <> TYPE_ARRAY
  /\ forall op lhs rhs, expr = Some (NODE_BINARY_OP op lhs rhs) ->
       value_type (runtime_evaluate_expression rt expr).1 <> TYPE_BOOLEAN.
Proof.
  split.
  - pose proof (evaluate_expression_no_array rt expr) as H.
    destruct (runtime_evaluate_expression rt expr).1; simpl in *; congruence.
  - intros op lhs rhs ->. unfold runtime_evaluate_expression at 1.
    destruct (operations_exceeded (count_operation rt)) eqn:Hx.
    + rewrite evaluate_node_exceeded by exact Hx. discriminate.
    + rewrite evaluate_node_binary_op by exact Hx. simpl.
      destruct (binary_op_result_kind op
                  (runtime_evaluate_expression (count_operation rt) lhs).1
                  (runtime_evaluate_expression
                     (runtime_evaluate_expression (count_operation rt) lhs).2
                     rhs).1) as [H | [H | H]]; congruence.
Qed.

Lemma evaluation_value_kinds_witness :
  value_type
    (runtime_evaluate_expression busy_runtime (Some a_plus_b)).1 <> TYPE_BOOLEAN.
Proof.
  apply (evaluation_value_kinds busy_runtime (Some a_plus_b)) with
    (op := TOKEN_PLUS)
    (lhs := Some (NODE_LITERAL (VString "a")))
    (rhs := Some (NODE_LITERAL (VString "b"))).
  reflexivity.
Defined.

Lemma expression_size_positive e : (1 <= expression_size e)%Z.
Proof.
  induction e as [ | | op lhs rhs IHl IHr | | | ] using ASTNode_operand_ind;
    simpl; try lia.
  destruct lhs as [l|], rhs as [r|];
    try pose proof (IHl _ eq_refl); try pose proof (IHr _ eq_refl); lia.
Qed.

Lemma operand_size_nonnegative (o : option ASTNode) : (0 <= operand_size o)%Z.
Proof.
  destruct o as [e|]; simpl; [pose proof (expression_size_positive e)|]; lia.
Qed.

Lemma expression_size_binary op lhs rhs :
  expression_size (NODE_BINARY_OP op lhs rhs)
  = (1 + operand_size lhs + operand_size rhs)%Z.
Proof. reflexivity. Qed.

Lemma evaluate_node_leaf rt e :
  operations_exceeded (count_operation rt) = false ->
  (forall op lhs rhs, e <> NODE_BINARY_OP op lhs rhs) ->
  (evaluate_node rt e).2 = count_operation rt /\ expression_size e = 1%Z.
Proof.
  intros Hx Hleaf. destruct e; simpl; rewrite ?Hx; simpl; auto.
  - destruct (runtime_get_variable _ _); auto.
  - exfalso. eapply Hleaf. reflexivity.
Qed.

(** Counter and error stream after the evaluation of a node: the stream
    gains [k] diagnostic lines, none when the budget covers the size of the
    expression and at least one otherwise; the counter never grows by more
    than the size and grows by the size when the budget covers it. *)
Lemma evaluate_node_profile e : forall rt,
  exists k : nat,
    stderr (evaluate_node rt e).2
    = stderr rt ++ replicate k MSG_OPERATIONS_EXCEEDED
    /\ (operation_count (evaluate_node rt e).2
        <= operation_count rt + expression_size e)%Z
    /\ ((operation_count rt + expression_size e <= max_operations (bounds rt))%Z ->
        k = 0%nat
        /\ operation_count (evaluate_node rt e).2
           = (operation_count rt + expression_size e)%Z)
    /\ ((max_operations (bounds rt) < operation_count rt + expression_size e)%Z ->
        (0 < k)%nat).
Proof.
  assert (Hexceeded : forall rt e,
            operations_exceeded (count_operation rt) = true ->
            exists k : nat,
              stderr (evaluate_node rt e).2
              = stderr rt ++ replicate k MSG_OPERATIONS_EXCEEDED
              /\ (operation_count (evaluate_node rt e).2
                  <= operation_count rt + expression_size e)%Z
              /\ ((operation_count rt + expression_size e
                   <= max_operations (bounds rt))%Z ->
                  k = 0%nat
                  /\ operation_count (evaluate_node rt e).2
                     = (operation_count rt + expression_size e)%Z)
              /\ ((max_operations (bounds rt)
                   < operation_count rt + expression_size e)%Z -> (0 < k)%nat)).
  { intros rt e' Hx. rewrite evaluate_node_exceeded by exact Hx.
    pose proof (expression_size_positive e') as Hpos.
    unfold operations_exceeded in Hx. simpl in Hx. apply Z.ltb_lt in Hx.
    exists 1%nat. simpl. repeat split; lia. }
  assert (Hleaf : forall rt e,
            operations_exceeded (count_operation rt) = false ->
            (forall op lhs rhs, e <> NODE_BINARY_OP op lhs rhs) ->
            exists k : nat,
              stderr (evaluate_node rt e).2
              = stderr rt ++ replicate k MSG_OPERATIONS_EXCEEDED
              /\ (operation_count (evaluate_node rt e).2
                  <= operation_count rt + expression_size e)%Z
              /\ ((operation_count rt + expression_size e
                   <= max_operations (bounds rt))%Z ->
                  k = 0%nat
                  /\ operation_count (evaluate_node rt e).2
                     = (operation_count rt + expression_size e)%Z)
              /\ ((max_operations (bounds rt)
                   < operation_count rt + expression_size e)%Z -> (0 < k)%nat)).
  { intros rt e' Hx Hl. destruct (evaluate_node_leaf rt e' Hx Hl) as [-> ->].
    unfold operations_exceeded in Hx. simpl in Hx. apply Z.ltb_ge in Hx.
    exists 0%nat. simpl. rewrite app_nil_r. repeat split; lia. }
  induction e as [value | name | op lhs rhs IHl IHr | field value
                 | name fields states whens | kind] using ASTNode_operand_ind;
    intros rt;
    (destruct (operations_exceeded (count_operation rt)) eqn:Hx';
     [apply Hexceeded; exact Hx' |]);
    try (apply Hleaf; [exact Hx' | discriminate]).
  clear Hexceeded Hleaf.
  assert (Hx : (operation_count rt + 1 <= max_operations (bounds rt))%Z).
  { unfold operations_exceeded in Hx'. simpl in Hx'. apply Z.ltb_ge in Hx'. lia. }
  rewrite evaluate_node_binary_op by exact Hx'. rewrite expression_size_binary.
  cbv zeta. cbn [fst snd].
  set (rt0 := count_operation rt).
  assert (Hoperand : forall o : option ASTNode,
            (forall e, o = Some e -> forall rt, exists k : nat,
               stderr (evaluate_node rt e).2
               = stderr rt ++ replicate k MSG_OPERATIONS_EXCEEDED
               /\ (operation_count (evaluate_node rt e).2
                   <= operation_count rt + expression_size e)%Z
               /\ ((operation_count rt + expression_size e
                    <= max_operations (bounds rt))%Z ->
                   k = 0%nat
                   /\ operation_count (evaluate_node rt e).2
                      = (operation_count rt + expression_size e)%Z)
               /\ ((max_operations (bounds rt)
                    < operation_count rt + expression_size e)%Z -> (0 < k)%nat)) ->
            forall rt, exists k : nat,
              stderr (runtime_evaluate_expression rt o).2
              = stderr rt ++ replicate k MSG_OPERATIONS_EXCEEDED
              /\ (operation_count (runtime_evaluate_expression rt o).2
                  <= operation_count rt + operand_size o)%Z
              /\ ((operation_count rt + operand_size o
                   <= max_operations (bounds rt))%Z ->
                  k = 0%nat
                  /\ operation_count (runtime_evaluate_expression rt o).2
                     = (operation_count rt + operand_size o)%Z)
              /\ ((operation_count rt <= max_operations (bounds rt))%Z ->
                  (max_operations (bounds rt)
                   < operation_count rt + operand_size o)%Z -> (0 < k)%nat)).
  { intros [e'|] IH rt'; simpl.
    - destruct (IH e' eq_refl rt') as (k & H1 & H2 & H3 & H4).
      exists k. repeat split; try apply H3; auto.
    - exists 0%nat. simpl. rewrite app_nil_r. repeat split; lia. }
  destruct (Hoperand lhs IHl rt0) as (k1 & Herr1 & Hle1 & Hin1 & Hout1).
  pose proof (runtime_evaluate_expression_frame rt0 lhs) as Hf1.
  set (rt1 := (runtime_evaluate_expression rt0 lhs).2) in *.
  destruct (Hoperand rhs IHr rt1) as (k2 & Herr2 & Hle2 & Hin2 & Hout2).
  clear Hoperand.
  pose proof (ef_bounds _ _ Hf1) as Hb1.
  pose proof (operand_size_nonnegative lhs) as Hsl.
  pose proof (operand_size_nonnegative rhs) as Hsr.
  assert (Hb0 : bounds rt0 = bounds rt) by reflexivity.
  assert (Hc0 : operation_count rt0 = (operation_count rt + 1)%Z) by reflexivity.
  rewrite Hb1, Hb0 in *. rewrite Hc0 in *.
  exists (k1 + k2)%nat. split; [| split; [| split]].
  - rewrite Herr2, Herr1. subst rt0. simpl.
    rewrite <- app_assoc, replicate_add. reflexivity.
  - lia.
  - intros Hbudget.
    destruct Hin1 as [-> Heq1]; [lia|].
    destruct Hin2 as [-> Heq2]; [lia|]. split; lia.
  - intros Hbudget.
    destruct (Z_le_gt_dec (operation_count rt + 1 + operand_size lhs)
                (max_operations (bounds rt))) as [Hfit|Hnot].
    + destruct Hin1 as [_ Heq1]; [lia|].
      assert (0 < k2)%nat by (apply Hout2; lia). lia.
    + assert (0 < k1)%nat by (apply Hout1; lia). lia.
Qed.

Lemma runtime_fields_eq (a b : Runtime) :
  instance_count a = instance_count b ->
  blueprints a = blueprints b ->
  variables a = variables b ->
  bounds a = bounds b ->
  operation_count a = operation_count b ->
  recursion_depth a = recursion_depth b ->
  stderr a = stderr b ->
  a = b.
Proof. destruct a, b; simpl; intros; subst; reflexivity. Qed.

(** X6.  The cost of an evaluation.  The counter grows by at most the number of
    nodes of the expression.  When the budget covers that number, the
    evaluation changes the runtime in the counter alone, which grows by
    exactly that number, and writes no diagnostic; when it does not, at least
    one diagnostic line is written. *)
Theorem evaluation_cost (rt : Runtime) (e : ASTNode) :
  (operation_count (runtime_evaluate_expression rt (Some e)).2
   <= operation_count rt + expression_size e)%Z
  /\ ((operation_count rt + expression_size e <= max_operations (bounds rt))%Z ->
      (runtime_evaluate_expression rt (Some e)).2
      = with_operation_count rt (operation_count rt + expression_size e))
  /\ ((max_operations (bounds rt) < operation_count rt + expression_size e)%Z ->
      (length (stderr rt)
       < length (stderr (runtime_evaluate_expression rt (Some e)).2))%nat).
Proof.
  simpl.
  destruct (evaluate_node_profile e rt) as (k & Herr & Hle & Hin & Hout).
  destruct (evaluate_node_frame e rt) as [Hframe _].
  split; [exact Hle|]. split.
  - intros Hbudget. destruct (Hin Hbudget) as [-> Hcount].
    simpl in Herr. rewrite app_nil_r in Herr.
    apply runtime_fields_eq; simpl;
      [apply (ef_instances _ _ Hframe) | apply (ef_blueprints _ _ Hframe)
      | apply (ef_variables _ _ Hframe) | apply (ef_bounds _ _ Hframe)
      | exact Hcount | apply (ef_depth _ _ Hframe) | exact Herr].
  - intros Hbudget. specialize (Hout Hbudget).
    rewrite Herr, length_app, length_replicate. lia.
Qed.

Lemma evaluation_cost_witness :
  (runtime_evaluate_expression (runtime_init []) (Some a_plus_b)).2
  = with_operation_count (runtime_init []) 3
  /\ (length (stderr busy_runtime)
      < length (stderr (runtime_evaluate_expression busy_runtime (Some a_plus_b)).2))%nat.
Proof.
  destruct (evaluation_cost (runtime_init []) a_plus_b) as (_ & Hin & _).
  destruct (evaluation_cost busy_runtime a_plus_b) as (_ & _ & Hout).
  split.
  - apply Hin. vm_compute. discriminate.
  - apply Hout. vm_compute. reflexivity.
Defined.

(** X7.  An evaluation reads the runtime and writes only the counter and the
    error stream: the variables, the registry, the number of instances, the
    bounds and the recursion depth are the same afterwards, and the error
    stream is the one before followed by diagnostic lines. *)
Theorem evaluation_is_read_only (rt : Runtime) (expr : option ASTNode) :
  variables (runtime_evaluate_expression rt expr).2 = variables rt
  /\ blueprints (runtime_evaluate_expression rt expr).2 = blueprints rt
  /\ instance_count (runtime_evaluate_expression rt expr).2 = instance_count rt
  /\ bounds (runtime_evaluate_expression rt expr).2 = bounds rt
  /\ recursion_depth (runtime_evaluate_expression rt expr).2 = recursion_depth rt
  /\ exists k : nat,
       stderr (runtime_evaluate_expression rt expr).2
       = stderr rt ++ replicate k MSG_OPERATIONS_EXCEEDED.
Proof.
  destruct (runtime_evaluate_expression_frame rt expr) as [H1 H2 H3 H4 H5 _].
  repeat (split; [assumption|]).
  destruct expr as [e|]; simpl.
  - destruct (evaluate_node_profile e rt) as (k & Herr & _). exists k. exact Herr.
  - exists 0%nat. simpl. symmetry. apply app_nil_r.
Qed.

Lemma get_variable_same_table rt1 rt2 name :
  variables rt1 = variables rt2 ->
  runtime_get_variable rt1 name = runtime_get_variable rt2 name.
Proof. intros H. unfold runtime_get_variable. rewrite H. reflexivity. Qed.

Lemma within_budget_not_exceeded rt e :
  (operation_count rt + expression_size e <= max_operations (bounds rt))%Z ->
  operations_exceeded (count_operation rt) = false.
Proof.
  intros H. pose proof (expression_size_positive e).
  apply below_bound_not_exceeded. lia.
Qed.

Lemma evaluate_node_same_value e : forall rt1 rt2,
  variables rt1 = variables rt2 ->
  (operation_count rt1 + expression_size e <= max_operations (bounds rt1))%Z ->
  (operation_count rt2 + expression_size e <= max_operations (bounds rt2))%Z ->
  (evaluate_node rt1 e).1 = (evaluate_node rt2 e).1.
Proof.
  induction e as [value | name | op lhs rhs IHl IHr | field value
                 | name fields states whens | kind] using ASTNode_operand_ind;
    intros rt1 rt2 Hvars Hb1 Hb2;
    pose proof (within_budget_not_exceeded _ _ Hb1) as Hx1;
    pose proof (within_budget_not_exceeded _ _ Hb2) as Hx2;
    try (simpl; rewrite Hx1, Hx2; reflexivity).
  - simpl. rewrite Hx1, Hx2.
    rewrite (get_variable_same_table (count_operation rt1) (count_operation rt2))
      by exact Hvars.
    destruct (runtime_get_variable _ _); reflexivity.
  - rewrite !evaluate_node_binary_op by assumption. cbv zeta. cbn [fst snd].
    rewrite expression_size_binary in Hb1, Hb2.
    pose proof (operand_size_nonnegative lhs) as Hsl.
    pose proof (operand_size_nonnegative rhs) as Hsr.
    assert (Hl : (runtime_evaluate_expression (count_operation rt1) lhs).1
                 = (runtime_evaluate_expression (count_operation rt2) lhs).1).
    { destruct lhs as [l|]; simpl; [|reflexivity].
      apply (IHl l eq_refl); simpl in *; [exact Hvars | lia | lia]. }
    assert (Hafter : forall rt,
              (operation_count rt + 1 + operand_size lhs + operand_size rhs
               <= max_operations (bounds rt))%Z ->
              (operation_count (runtime_evaluate_expression (count_operation rt) lhs).2
               + operand_size rhs
               <= max_operations
                    (bounds (runtime_evaluate_expression (count_operation rt) lhs).2))%Z).
    { intros rt Hb.
      pose proof (runtime_evaluate_expression_frame (count_operation rt) lhs) as Hf.
      rewrite (ef_bounds _ _ Hf). simpl.
      destruct lhs as [l|]; simpl in *; [|lia].
      destruct (evaluate_node_profile l (count_operation rt)) as (_ & _ & Hle & _).
      simpl in Hle. lia. }
    assert (Hr : (runtime_evaluate_expression
                    (runtime_evaluate_expression (count_operation rt1) lhs).2 rhs).1
                 = (runtime_evaluate_expression
                      (runtime_evaluate_expression (count_operation rt2) lhs).2 rhs).1).
    { pose proof (Hafter rt1 ltac:(lia)) as Ha1.
      pose proof (Hafter rt2 ltac:(lia)) as Ha2.
      pose proof (runtime_evaluate_expression_frame (count_operation rt1) lhs) as Hf1.
      pose proof (runtime_evaluate_expression_frame (count_operation rt2) lhs) as Hf2.
      destruct rhs as [r|]; simpl; [|reflexivity].
      apply (IHr r eq_refl).
      - rewrite (ef_variables _ _ Hf1), (ef_variables _ _ Hf2). exact Hvars.
      - exact Ha1.
      - exact Ha2. }
    rewrite Hl, Hr. reflexivity.
Qed.

(** X8.  Within the budget the value of an expression depends on the variables
    alone: two runtimes with the same variable table give the same value,
    whatever their counters, bounds, registries and error streams. *)
Theorem evaluation_value_depends_on_variables (rt1 rt2 : Runtime) (e : ASTNode) :
  variables rt1 = variables rt2 ->
  (operation_count rt1 + expression_size e <= max_operations (bounds rt1))%Z ->
  (operation_count rt2 + expression_size e <= max_operations (bounds rt2))%Z ->
  (runtime_evaluate_expression rt1 (Some e)).1
  = (runtime_evaluate_expression rt2 (Some e)).1.
Proof. apply evaluate_node_same_value. Qed.

Lemma evaluation_value_depends_on_variables_witness :
  (runtime_evaluate_expression (runtime_init []) (Some a_plus_b)).1
  = (runtime_evaluate_expression
       (with_operation_count (runtime_init ["noise"]) 500) (Some a_plus_b)).1.
Proof.
  apply (evaluation_value_depends_on_variables
           (runtime_init []) (with_operation_count (runtime_init ["noise"]) 500)
           a_plus_b).
  - reflexivity.
  - vm_compute. discriminate.
  - vm_compute. discriminate.
Defined.

(** ** Instances between handler calls *)

Lemma instance_fields_eq (a b : Instance) :
  blueprint a = blueprint b ->
  field_values a = field_values b ->
  current_state a = current_state b ->
  in_transaction a = in_transaction b ->
  field_snapshot a = field_snapshot b ->
  a = b.
Proof. destruct a, b; simpl; intros; subst; reflexivity. Qed.

Lemma initialize_fields_no_array fields : forall rt,
  no_array (initialize_fields rt fields).1.
Proof.
  induction fields as [|f fields IH]; intros rt; simpl; [constructor|].
  pose proof (evaluate_expression_no_array rt (initial_value f)) as Hv.
  destruct (runtime_evaluate_expression rt (initial_value f)) as [v rt1].
  specialize (IH rt1).
  destruct (initialize_fields rt1 fields) as [vs rt2]. simpl in *.
  constructor; assumption.
Qed.

Lemma initialize_fields_absent fields : forall rt j f,
  fields !! j = Some f -> initial_value f = None ->
  (initialize_fields rt fields).1 !! j = Some VNull.
Proof.
  induction fields as [|g fields IH]; intros rt j f Hj Hnone; [discriminate Hj|].
  simpl.
  destruct (runtime_evaluate_expression rt (initial_value g)) as [v rt1] eqn:Hg.
  specialize (IH rt1).
  destruct (initialize_fields rt1 fields) as [vs rt2]. simpl in *.
  destruct j as [|j]; simpl in *.
  - injection Hj as ->. rewrite Hnone in Hg. simpl in Hg.
    injection Hg as <- _. reflexivity.
  - apply (IH j f Hj Hnone).
Qed.

(** X9.  The three outcomes of [runtime_create_instance].  A name that is not
    registered gives [NULL] and leaves the runtime as it was.  A registered
    name with a free slot gives an instance of the first blueprint of that
    name, with one value per field, no array among them, [Null] in every field
    without an initial value, no current state and no transaction; the runtime
    counts one more instance and keeps its variables and registry.  A
    registered name with all 64 slots taken stores past the array. *)
Theorem create_instance_outcomes (rt : Runtime) (name : string) :
  (find_blueprint rt name = None ->
   runtime_create_instance rt name = Returns (None, rt))
  /\ (forall i bp, find_blueprint rt name = Some (i, bp) ->
        (instance_count rt < INSTANCE_SLOTS)%nat ->
        exists inst rt',
          runtime_create_instance rt name = Returns (Some inst, rt')
          /\ blueprint inst = bp
          /\ settled inst
          /\ current_state inst = None
          /\ (forall j f, bp_fields bp !! j = Some f -> initial_value f = None ->
                field_values inst !! j = Some VNull)
          /\ instance_count rt' = S (instance_count rt)
          /\ variables rt' = variables rt
          /\ blueprints rt' = blueprints rt)
  /\ (forall i bp, find_blueprint rt name = Some (i, bp) ->
        (INSTANCE_SLOTS <= instance_count rt)%nat ->
        runtime_create_instance rt name = Overrun).
Proof.
  split; [| split].
  - intros H. unfold runtime_create_instance. rewrite H. reflexivity.
  - intros i bp Hfind Hslots. unfold runtime_create_instance. rewrite Hfind.
    destruct (initialize_fields_frame (bp_fields bp) rt) as [Hframe Hlen].
    pose proof (initialize_fields_no_array (bp_fields bp) rt) as Hno.
    pose proof (initialize_fields_absent (bp_fields bp) rt) as Habs.
    destruct (initialize_fields rt (bp_fields bp)) as [values rt1].
    simpl in Hframe, Hlen, Hno, Habs.
    rewrite (ef_instances _ _ Hframe).
    rewrite decide_True by exact Hslots.
    eexists _, _. split; [reflexivity|]. simpl.
    split; [reflexivity|]. split; [split; simpl; auto|].
    split; [reflexivity|]. split; [exact Habs|].
    split; [reflexivity|].
    split; [apply (ef_variables _ _ Hframe) | apply (ef_blueprints _ _ Hframe)].
  - intros i bp Hfind Hslots. unfold runtime_create_instance. rewrite Hfind.
    destruct (initialize_fields_frame (bp_fields bp) rt) as [Hframe _].
    destruct (initialize_fields rt (bp_fields bp)) as [values rt1].
    simpl in Hframe. rewrite (ef_instances _ _ Hframe).
    rewrite decide_False by lia. reflexivity.
Qed.

Lemma create_instance_outcomes_witness :
  runtime_create_instance busy_runtime "Box" = Returns (None, busy_runtime)
  /\ exists inst rt',
       runtime_create_instance
         (with_blueprints busy_runtime [box_blueprint]) "Box"
       = Returns (Some inst, rt')
       /\ field_values inst = [VNull; VNull].
Proof.
  split.
  - apply (create_instance_outcomes busy_runtime "Box"). reflexivity.
  - destruct (create_instance_outcomes (with_blueprints busy_runtime [box_blueprint])
                "Box") as (_ & Hfound & _).
    destruct (Hfound 0%nat box_blueprint) as (inst & rt' & Hcreate & Hbp & Hs & _ & Hnull & _).
    + reflexivity.
    + vm_compute. repeat constructor.
    + exists inst, rt'. split; [exact Hcreate|].
      destruct Hs as [Hlen _ _ _]. red in Hlen. rewrite Hbp in Hlen.
      pose proof (Hnull 0%nat _ eq_refl eq_refl) as H0.
      pose proof (Hnull 1%nat _ eq_refl eq_refl) as H1.
      destruct (field_values inst) as [|v0 [|v1 [|v2 vs]]]; simpl in *;
        try discriminate Hlen.
      congruence.
Defined.

Lemma set_field_no_array inst field v :
  no_array (field_values inst) -> is_array v = false ->
  no_array (field_values (set_field inst field v)).
Proof.
  intros Hno Hv. unfold set_field.
  destruct (list_find _ _) as [[k f]|]; simpl; [|exact Hno].
  apply Forall_insert; assumption.
Qed.

Lemma execute_action_no_array rt inst action :
  no_array (field_values inst) ->
  no_array (field_values (execute_action rt inst action).1).
Proof.
  intros Hno. destruct action; simpl; try exact Hno.
  pose proof (evaluate_expression_no_array rt value) as Hv.
  destruct (runtime_evaluate_expression rt value) as [v rt'].
  apply set_field_no_array; assumption.
Qed.

Lemma execute_actions_no_array acts : forall rt inst,
  no_array (field_values inst) ->
  no_array (field_values (execute_actions rt inst acts).1).
Proof.
  induction acts as [|a acts IH]; intros rt inst Hno; simpl; [exact Hno|].
  pose proof (execute_action_no_array rt inst a Hno) as Ha.
  destruct (execute_action rt inst a) as [inst1 rt1]. apply IH, Ha.
Qed.

Lemma execute_action_runtime rt inst action :
  evaluation_frame rt (execute_action rt inst action).2.
Proof.
  destruct action; simpl; try apply evaluation_frame_refl.
  pose proof (runtime_evaluate_expression_frame rt value) as H.
  destruct (runtime_evaluate_expression rt value) as [v rt']. exact H.
Qed.

Lemma execute_actions_runtime acts : forall rt inst,
  evaluation_frame rt (execute_actions rt inst acts).2.
Proof.
  induction acts as [|a acts IH]; intros rt inst; simpl.
  - apply evaluation_frame_refl.
  - pose proof (execute_action_runtime rt inst a) as Ha.
    destruct (execute_action rt inst a) as [inst1 rt1].
    eapply evaluation_frame_trans; [exact Ha | apply IH].
Qed.

(** The instance a found handler leaves: the actions run on the instance
    with the snapshot taken, and the commit closes the transaction. *)
Lemma execute_when_found rt inst name k when :
  find_when inst name = Some (k, when) ->
  runtime_execute_when rt inst name
  = ({| success := true;
        message := Some (match result_message when with
                         | Some m => m
                         | None => "When clause executed successfully"
                         end);
        result_value := VNull |},
     runtime_commit_transaction
       (execute_actions rt (runtime_begin_transaction inst) (actions when)).1,
     (execute_actions rt (runtime_begin_transaction inst) (actions when)).2).
Proof.
  intros Hfind. unfold runtime_execute_when. rewrite Hfind.
  destruct (execute_actions rt (runtime_begin_transaction inst) (actions when))
    as [inst1 rt1].
  destruct (result_message when); reflexivity.
Qed.

(** X13.  A handler call keeps an instance settled.  Whatever the name, after
    [runtime_execute_when] a settled instance is settled again, with the same
    blueprint and current state, and the runtime has the same variables,
    registry and number of instances. *)
Theorem execute_when_keeps_settled (rt : Runtime) (inst : Instance) (name : string) :
  settled inst ->
  settled (runtime_execute_when rt inst name).1.2
  /\ blueprint (runtime_execute_when rt inst name).1.2 = blueprint inst
  /\ current_state (runtime_execute_when rt inst name).1.2 = current_state inst
  /\ variables (runtime_execute_when rt inst name).2 = variables rt
  /\ blueprints (runtime_execute_when rt inst name).2 = blueprints rt
  /\ instance_count (runtime_execute_when rt inst name).2 = instance_count rt.
Proof.
  intros [Hlen Hno Hidle Hsnap].
  destruct (find_when inst name) as [[k when]|] eqn:Hfind.
  - rewrite (execute_when_found _ _ _ _ _ Hfind). simpl.
    destruct (execute_actions_frame (actions when) rt (runtime_begin_transaction inst))
      as [Hbp _ _ Hstate Hlength].
    pose proof (execute_actions_no_array (actions when) rt
                  (runtime_begin_transaction inst) Hno) as Hno'.
    destruct (execute_actions_runtime (actions when) rt (runtime_begin_transaction inst))
      as [Hi Hb Hv _ _ _].
    simpl in *.
    split; [split; simpl; auto; red; simpl; red in Hlen; congruence|].
    repeat split; assumption.
  - unfold runtime_execute_when. rewrite Hfind. simpl.
    split; [split; assumption|]. repeat split.
Qed.

Lemma execute_when_keeps_settled_witness :
  settled (runtime_execute_when busy_runtime plain_instance "relabel").1.2.
Proof.
  apply (execute_when_keeps_settled busy_runtime plain_instance "relabel").
  split; [reflexivity | repeat constructor | reflexivity | reflexivity].
Defined.

(** X14.  A transaction that is rolled back undoes every action: on a settled
    instance, [begin], any list of actions and [rollback] give back the
    instance itself, in every member. *)
Theorem rollback_undoes_actions
    (rt : Runtime) (inst : Instance) (acts : list ASTNode) :
  settled inst ->
  runtime_rollback_transaction
    (execute_actions rt (runtime_begin_transaction inst) acts).1
  = inst.
Proof.
  intros [Hlen Hno Hidle Hsnap].
  pose proof (rollback_restores_fields rt inst acts Hlen Hno) as Hfields.
  destruct (execute_actions_frame acts rt (runtime_begin_transaction inst))
    as [Hbp Hs Hflag Hstate _].
  set (inst' := (execute_actions rt (runtime_begin_transaction inst) acts).1) in *.
  simpl in Hbp, Hs, Hflag, Hstate.
  apply instance_fields_eq; [| exact Hfields | | |];
    unfold runtime_rollback_transaction; rewrite Hflag, Hs; simpl; congruence.
Qed.

Lemma rollback_undoes_actions_witness :
  runtime_rollback_transaction
    (execute_actions busy_runtime (runtime_begin_transaction plain_instance)
       [NODE_ACTION_SET "label" (Some (NODE_LITERAL (VString "new")));
        NODE_ACTION_SET "items" None]).1
  = plain_instance.
Proof.
  apply (rollback_undoes_actions busy_runtime plain_instance).
  split; [reflexivity | repeat constructor | reflexivity | reflexivity].
Defined.

(** X15.  Nothing can be rolled back after a handler has run: the handler commits,
    so a rollback on the instance it returns changes nothing. *)
Theorem rollback_after_handler_is_void
    (rt : Runtime) (inst : Instance) (name : string)
    (k : nat) (when : WhenDecl ASTNode) :
  find_when inst name = Some (k, when) ->
  runtime_rollback_transaction (runtime_execute_when rt inst name).1.2
  = (runtime_execute_when rt inst name).1.2
  /\ in_transaction (runtime_execute_when rt inst name).1.2 = false
  /\ field_snapshot (runtime_execute_when rt inst name).1.2 = None.
Proof.
  intros Hfind. rewrite (execute_when_found _ _ _ _ _ Hfind). simpl.
  repeat split.
Qed.

Lemma rollback_after_handler_is_void_witness :
  field_values
    (runtime_rollback_transaction
       (runtime_execute_when busy_runtime plain_instance "relabel").1.2)
  = [VNumber (Double.of_Z 7); VString "new"].
Proof.
  destruct (rollback_after_handler_is_void busy_runtime plain_instance "relabel"
              0 (mkWhen "relabel"
                   [NODE_ACTION_SET "label" (Some (NODE_LITERAL (VString "new")))]
                   None) eq_refl) as [H _].
  rewrite H. reflexivity.
Defined.

(** ** What a handler does to the fields *)

(** X16.  Of several handlers with one name only the first runs: its actions are
    executed between [begin] and [commit], and the result is a success with
    its message, or with the default message when it has none. *)
Theorem first_handler_wins
    (rt : Runtime) (inst : Instance) (name : string)
    (before after : list (WhenDecl ASTNode)) (when : WhenDecl ASTNode) :
  bp_whens (blueprint inst) = before ++ when :: after ->
  Forall (fun w : WhenDecl ASTNode => when_name w <> name) before ->
  when_name when = name ->
  runtime_execute_when rt inst name
  = ({| success := true;
        message := Some (match result_message when with
                         | Some m => m
                         | None => "When clause executed successfully"
                         end);
        result_value := VNull |},
     runtime_commit_transaction
       (execute_actions rt (runtime_begin_transaction inst) (actions when)).1,
     (execute_actions rt (runtime_begin_transaction inst) (actions when)).2).
Proof.
  intros Hwhens Hbefore Hname.
  apply (execute_when_found rt inst name (length before) when).
  unfold find_when. rewrite Hwhens. apply list_find_Some. split; [| split].
  - rewrite lookup_app_r by lia. rewrite Nat.sub_diag. reflexivity.
  - exact Hname.
  - intros j w Hj Hlt. rewrite lookup_app_l in Hj by exact Hlt.
    rewrite Forall_lookup in Hbefore. exact (Hbefore j w Hj).
Qed.

Lemma first_handler_wins_witness :
  (runtime_execute_when busy_runtime plain_instance "stray").1.1
  = {| success := true; message := Some "done"; result_value := VNull |}.
Proof.
  rewrite (first_handler_wins busy_runtime plain_instance "stray"
             [mkWhen "relabel"
                [NODE_ACTION_SET "label" (Some (NODE_LITERAL (VString "new")))]
                None]
             []
             (mkWhen "stray"
                [NODE_ACTION_SET "Nonexistent"
                   (Some (NODE_LITERAL (VNumber (Double.of_Z 5))))]
                (Some "done"))).
  - reflexivity.
  - reflexivity.
  - repeat constructor. discriminate.
  - reflexivity.
Defined.

(** X17.  A field-set on a declared field writes the first field of that name and
    no other slot: after the handler the slot holds the value of the
    right-hand side and every other slot holds what it held. *)
Theorem handler_sets_field
    (rt : Runtime) (inst : Instance) (name field : string)
    (k0 k : nat) (when : WhenDecl ASTNode) (f : FieldDecl ASTNode)
    (value : option ASTNode) :
  fields_allocated inst ->
  find_when inst name = Some (k0, when) ->
  actions when = [NODE_ACTION_SET field value] ->
  list_find (fun g : FieldDecl ASTNode => field_name g = field)
            (bp_fields (blueprint inst)) = Some (k, f) ->
  field_values (runtime_execute_when rt inst name).1.2 !! k
  = Some (runtime_evaluate_expression rt value).1
  /\ forall j, j <> k ->
       field_values (runtime_execute_when rt inst name).1.2 !! j
       = field_values inst !! j.
Proof.
  intros Hlen Hfind Hacts Hfield.
  rewrite (execute_when_found _ _ _ _ _ Hfind), Hacts. simpl.
  destruct (runtime_evaluate_expression rt value) as [v rt'].
  unfold set_field. simpl. rewrite Hfield. simpl.
  apply list_find_Some in Hfield as (Hk & _ & _).
  apply lookup_lt_Some in Hk. red in Hlen. unfold field_count in Hlen.
  split.
  - apply list_lookup_insert_eq. lia.
  - intros j Hj. apply list_lookup_insert_ne. congruence.
Qed.

Lemma handler_sets_field_witness :
  field_values (runtime_execute_when (runtime_init []) plain_instance "relabel").1.2
  !! 1%nat = Some (VString "new").
Proof.
  destruct (handler_sets_field (runtime_init []) plain_instance "relabel" "label"
              0 1
              (mkWhen "relabel"
                 [NODE_ACTION_SET "label" (Some (NODE_LITERAL (VString "new")))]
                 None)
              (mkField "label" None)
              (Some (NODE_LITERAL (VString "new")))
              eq_refl eq_refl eq_refl eq_refl) as [H _].
  exact H.
Defined.

Lemma execute_action_exhausted rt inst action :
  (max_operations (bounds rt) <= operation_count rt)%Z ->
  (max_operations (bounds (execute_action rt inst action).2)
   <= operation_count (execute_action rt inst action).2)%Z
  /\ forall j v,
       field_values (execute_action rt inst action).1 !! j = Some v ->
       v = VNull \/ field_values inst !! j = Some v.
Proof.
  intros Hx.
  pose proof (execute_action_runtime rt inst action) as Hframe.
  split.
  - rewrite (ef_bounds _ _ Hframe). pose proof (ef_count _ _ Hframe). lia.
  - intros j v. destruct action; simpl; auto.
    assert (Hnull : (runtime_evaluate_expression rt value).1 = VNull).
    { destruct value as [e|]; simpl; [|reflexivity].
      rewrite evaluate_node_exceeded by (apply at_bound_exceeded, Hx).
      reflexivity. }
    destruct (runtime_evaluate_expression rt value) as [w rt']. simpl in Hnull.
    subst w. unfold set_field.
    destruct (list_find _ _) as [[k g]|]; simpl; auto.
    intros Hj. apply list_lookup_insert_Some in Hj as [(-> & <- & _) | [_ Hj]]; auto.
Qed.

Lemma execute_actions_exhausted acts : forall rt inst (original : list Value),
  (max_operations (bounds rt) <= operation_count rt)%Z ->
  (forall j v, field_values inst !! j = Some v ->
               v = VNull \/ original !! j = Some v) ->
  forall j v, field_values (execute_actions rt inst acts).1 !! j = Some v ->
              v = VNull \/ original !! j = Some v.
Proof.
  induction acts as [|a acts IH]; intros rt inst original Hx Hinv; simpl;
    [exact Hinv|].
  destruct (execute_action_exhausted rt inst a Hx) as [Hx' Hstep].
  destruct (execute_action rt inst a) as [inst1 rt1]. simpl in *.
  apply (IH rt1 inst1 original Hx').
  intros j v Hj. destruct (Hstep j v Hj) as [-> | Hold]; auto.
Qed.

(** X18.  Once the operation counter has reached the bound, a handler still
    succeeds and commits, and all it can do to a field is set it to [Null]:
    every slot holds [Null] or the value it held before the call. *)
Theorem exhausted_handler_nulls_fields
    (rt : Runtime) (inst : Instance) (name : string)
    (k : nat) (when : WhenDecl ASTNode) :
  (max_operations (bounds rt) <= operation_count rt)%Z ->
  find_when inst name = Some (k, when) ->
  (runtime_execute_when rt inst name).1.1.(success) = true
  /\ in_transaction (runtime_execute_when rt inst name).1.2 = false
  /\ forall j v,
       field_values (runtime_execute_when rt inst name).1.2 !! j = Some v ->
       v = VNull \/ field_values inst !! j = Some v.
Proof.
  intros Hx Hfind. rewrite (execute_when_found _ _ _ _ _ Hfind). simpl.
  split; [reflexivity|]. split; [reflexivity|].
  apply (execute_actions_exhausted (actions when) rt
           (runtime_begin_transaction inst) (field_values inst) Hx).
  intros j v Hj. right. exact Hj.
Qed.

Lemma exhausted_handler_nulls_fields_witness :
  field_values
    (runtime_execute_when (with_operation_count busy_runtime 1000000)
       plain_instance "relabel").1.2
  = [VNumber (Double.of_Z 7); VNull].
Proof.
  destruct (exhausted_handler_nulls_fields
              (with_operation_count busy_runtime 1000000) plain_instance "relabel"
              0 (mkWhen "relabel"
                   [NODE_ACTION_SET "label" (Some (NODE_LITERAL (VString "new")))]
                   None))
    as (_ & _ & H).
  - vm_compute. discriminate.
  - reflexivity.
  - destruct (H 1%nat VNull eq_refl) as [_ | Hold]; reflexivity.
Defined.

(** ** Top-level execution and the registry *)

(** X11.  When [runtime_execute] returns, its result is a failure only for the
    absent node, it never carries the message of a failed definition, and
    the registry has grown by the one blueprint of a blueprint node and not at
    all otherwise. *)
Theorem execute_reports rt node r rt' :
  runtime_execute rt node = Returns (r, rt') ->
  (success r = false <-> node = None)
  /\ message r <> Some "Failed to define blueprint"
  /\ (forall name fields states whens,
        node = Some (NODE_BLUEPRINT name fields states whens) ->
        blueprints rt' = blueprints rt ++ [mkBlueprint name fields states whens])
  /\ (forall n, node = Some n -> is_blueprint_node n = false -> rt' = rt)
  /\ (node = None -> rt' = rt).
Proof.
  unfold runtime_execute. destruct node as [n|].
  - destruct (is_blueprint_node n) eqn:Hbp.
    + destruct n; try discriminate Hbp. unfold runtime_define_blueprint.
      destruct (decide _); [|discriminate].
      intros [= <- <-]. simpl. repeat apply conj.
      * intros H; discriminate H.
      * intros H; discriminate H.
      * discriminate.
      * intros ? ? ? ? [= <- <- <- <-]. reflexivity.
      * intros n [= <-] H. discriminate H.
      * intros H; discriminate H.
    + intros [= <- <-]. simpl. repeat apply conj.
      * intros H; discriminate H.
      * intros H; discriminate H.
      * discriminate.
      * intros ? ? ? ? [= ->]. discriminate Hbp.
      * reflexivity.
      * intros H; discriminate H.
  - intros [= <- <-]. simpl. repeat apply conj.
    + reflexivity.
    + reflexivity.
    + discriminate.
    + intros ? ? ? ? H; discriminate H.
    + intros n H; discriminate H.
    + reflexivity.
Qed.

Lemma execute_reports_witness :
  blueprints
    (with_blueprints busy_runtime
       (blueprints busy_runtime ++ [mkBlueprint "Box" [] [] []]))
  = blueprints busy_runtime ++ [mkBlueprint "Box" [] [] []]
  /\ Some "Blueprint defined successfully" <> Some "Failed to define blueprint".
Proof.
  destruct (execute_reports busy_runtime
              (Some (NODE_BLUEPRINT "Box" [] [] []))
              {| success := true;
                 message := Some "Blueprint defined successfully";
                 result_value := VNull |}
              (with_blueprints busy_runtime
                 (blueprints busy_runtime ++ [mkBlueprint "Box" [] [] []]))
              eq_refl) as (_ & Hmsg & Hreg & _).
  split; [exact (Hreg _ _ _ _ eq_refl) | exact Hmsg].
Defined.

(** X12.  [runtime_execute] goes past the registry exactly when it is given a
    blueprint node and all 64 slots are taken; every other call returns. *)
Theorem execute_overrun rt node :
  runtime_execute rt node = Overrun <->
  (exists n, node = Some n /\ is_blueprint_node n = true)
  /\ (BLUEPRINT_SLOTS <= blueprint_count rt)%nat.
Proof.
  unfold runtime_execute. destruct node as [n|].
  - destruct (is_blueprint_node n) eqn:Hbp.
    + destruct n; try discriminate Hbp. unfold runtime_define_blueprint.
      destruct (decide _) as [Hlt|Hge].
      * split; [discriminate | intros [_ H]; lia].
      * split; [intros _; split; [eexists; split; reflexivity | lia] | reflexivity].
    + split; [discriminate|].
      intros [(m & [= <-] & Hm) _]. congruence.
  - split; [discriminate | intros [(m & Hm & _) _]; discriminate Hm].
Qed.

(** X10.  Definition and lookup.  After [runtime_execute] has defined a blueprint
    under a name that was not registered, [runtime_create_instance] by that
    name gives an instance of that blueprint, with one value per declared
    field. *)
Theorem define_then_create rt name fields states whens :
  Forall (fun b => bp_name b <> name) (blueprints rt) ->
  (blueprint_count rt < BLUEPRINT_SLOTS)%nat ->
  (instance_count rt < INSTANCE_SLOTS)%nat ->
  exists r rt1 inst rt2,
    runtime_execute rt (Some (NODE_BLUEPRINT name fields states whens))
    = Returns (r, rt1)
    /\ success r = true
    /\ runtime_create_instance rt1 name = Returns (Some inst, rt2)
    /\ blueprint inst = mkBlueprint name fields states whens
    /\ length (field_values inst) = length fields.
Proof.
  intros Hfresh Hslots Hinst.
  rewrite (execute_blueprint rt name fields states whens Hslots).
  eexists _, _.
  assert (Hfind : find_blueprint
                    (with_blueprints rt
                       (blueprints rt ++ [mkBlueprint name fields states whens]))
                    name
                  = Some (length (blueprints rt),
                          mkBlueprint name fields states whens)).
  { apply (find_blueprint_first _ (blueprints rt)
             (mkBlueprint name fields states whens) []); [reflexivity | exact Hfresh]. }
  destruct (create_instance_found _ _ _ _ Hfind Hinst)
    as (inst & rt2 & Hcreate & Hbp & Hlen & _).
  exists inst, rt2. split; [reflexivity|]. split; [reflexivity|].
  split; [exact Hcreate|]. split; [exact Hbp|].
  red in Hlen. rewrite Hbp in Hlen. exact Hlen.
Qed.

Lemma define_then_create_witness :
  exists r rt1 inst rt2,
    runtime_execute busy_runtime
      (Some (NODE_BLUEPRINT "Box" [mkField "a" None] [] []))
    = Returns (r, rt1)
    /\ success r = true
    /\ runtime_create_instance rt1 "Box" = Returns (Some inst, rt2)
    /\ blueprint inst = mkBlueprint "Box" [mkField "a" None] [] []
    /\ length (field_values inst) = 1%nat.
Proof.
  apply (define_then_create busy_runtime "Box" [mkField "a" None] [] []).
  - constructor.
  - vm_compute. repeat constructor.
  - vm_compute. repeat constructor.
Defined.

(** ** Identifiers *)

(** X4.  An identifier reads back what was set, through [value_copy]: within the
    budget it evaluates to the value set for its name, except that an array
    reads back as [Null]; a name that is not in the table evaluates to
    [Null]. *)
Theorem identifier_reads_variable (MAX_VARIABLES : nat) rt name value rt' other :
  runtime_set_variable MAX_VARIABLES rt name value = Returns rt' ->
  (operation_count rt' < max_operations (bounds rt'))%Z ->
  (is_array value = false ->
   (runtime_evaluate_expression rt' (Some (NODE_IDENTIFIER name))).1 = value)
  /\ (is_array value = true ->
      (runtime_evaluate_expression rt' (Some (NODE_IDENTIFIER name))).1 = VNull)
  /\ (runtime_get_variable rt' other = None ->
      (runtime_evaluate_expression rt' (Some (NODE_IDENTIFIER other))).1 = VNull).
Proof.
  intros Hset Hbudget.
  destruct (set_variable_lookup _ _ _ _ _ other Hset) as [Hget _].
  pose proof (below_bound_not_exceeded rt' Hbudget) as Hx.
  assert (Hread : forall n,
            (runtime_evaluate_expression rt' (Some (NODE_IDENTIFIER n))).1
            = match runtime_get_variable rt' n with
              | Some var => value_copy var
              | None => VNull
              end).
  { intros n. simpl. rewrite Hx.
    rewrite (get_variable_same_table (count_operation rt') rt') by reflexivity.
    destruct (runtime_get_variable rt' n); reflexivity. }
  rewrite !Hread, Hget. split; [| split].
  - apply value_copy_not_array.
  - destruct value; simpl; intros H; try discriminate H; reflexivity.
  - intros ->. reflexivity.
Qed.

Lemma identifier_reads_variable_witness :
  exists rt',
    runtime_set_variable 256 (runtime_init []) "x"
      (VArray [VNumber (Double.of_Z 1)]) = Returns rt'
    /\ (runtime_evaluate_expression rt' (Some (NODE_IDENTIFIER "x"))).1 = VNull.
Proof.
  eexists. split; [reflexivity|].
  apply (identifier_reads_variable 256 (runtime_init []) "x"
           (VArray [VNumber (Double.of_Z 1)]) _ "y" eq_refl).
  - vm_compute. reflexivity.
  - reflexivity.
Defined.

(** ** Witnesses for the copies in memory *)

Lemma memory_copy_refines_witness :
  exists c h',
    Memory.value_copy {[ 1%positive := "text" ]} (Memory.CString 1%positive)
    = Some (c, h')
    /\ Memory.contents h' c = Some (VString "text")
    /\ Memory.contents h' (Memory.CString 1%positive) = Some (VString "text").
Proof.
  apply (memory_copy_refines {[ 1%positive := "text" ]}
           (Memory.CString 1%positive) (VString "text")).
  reflexivity.
Defined.

Lemma memory_copy_independent_witness :
  Memory.contents
    (Memory.value_free
       (<[ fresh (dom ({[ 1%positive := "text" ]} : gmap positive string)) := "text" ]>
          {[ 1%positive := "text" ]})
       (Memory.CString
          (fresh (dom ({[ 1%positive := "text" ]} : gmap positive string)))))
    (Memory.CString 1%positive)
  = Some (VString "text").
Proof.
  apply (memory_copy_independent {[ 1%positive := "text" ]} _
           (Memory.CString 1%positive) _ (VString "text")).
  - reflexivity.
  - reflexivity.
Defined.

(** ** Running a program *)

Lemma find_blueprint_registered rt bp :
  bp ∈ blueprints rt -> is_Some (find_blueprint rt (bp_name bp)).
Proof.
  intros Hin. unfold find_blueprint.
  apply (list_find_elem_of (fun b => bp_name b = bp_name bp) _ bp Hin).
  reflexivity.
Qed.

(** The first handler of a blueprint is the one found under its own name. *)
Lemma find_when_first inst first rest :
  bp_whens (blueprint inst) = first :: rest ->
  find_when inst (when_name first) = Some (0%nat, first).
Proof.
  intros H. unfold find_when. rewrite H. simpl.
  rewrite decide_True by reflexivity. reflexivity.
Qed.

(** What [tinytalk_run_string] returns for a blueprint program, in terms of
    the blueprint the lookup by the program's name finds after the
    definition. *)
Lemma run_string_blueprint env source name fields states whens i bp :
  parser_parse env source = (false, Some (NODE_BLUEPRINT name fields states whens)) ->
  stdlib_leaves_room env ->
  find_blueprint
    (with_blueprints (stdlib_init env (runtime_init []))
       (blueprints (stdlib_init env (runtime_init []))
        ++ [mkBlueprint name fields states whens]))
    name = Some (i, bp) ->
  tinytalk_run_string env source
  = Returns
      {| success := true;
         message :=
           Some (match bp_whens bp with
                 | [] => "Blueprint defined successfully"
                 | first :: _ =>
                     match result_message first with
                     | Some m => m
                     | None => "When clause executed successfully"
                     end
                 end);
         result_value := VNull |}.
Proof.
  intros Hparse [Hbp Hinst] Hfind. unfold tinytalk_run_string. rewrite Hparse.
  rewrite (execute_blueprint _ name fields states whens Hbp). simpl.
  destruct (create_instance_found _ name i bp Hfind Hinst)
    as (inst & rt2 & Hcreate & Hblue & _).
  rewrite Hcreate. rewrite Hblue.
  destruct (bp_whens bp) as [|first rest] eqn:Hwhens; [reflexivity|].
  assert (Hw : find_when inst (when_name first) = Some (0%nat, first)).
  { apply (find_when_first inst first rest). rewrite Hblue. exact Hwhens. }
  rewrite (execute_when_found _ _ _ _ _ Hw). reflexivity.
Qed.

(** [tinytalk_run_string] returns, with a success for every source that
    parses to a tree and with ["Parse error"] for every other source. *)
Lemma run_string_result env source :
  stdlib_leaves_room env ->
  exists r,
    tinytalk_run_string env source = Returns r
    /\ success r = tinytalk_check_syntax env source
    /\ (tinytalk_check_syntax env source = false -> r = PARSE_ERROR).
Proof.
  intros Hroom. unfold tinytalk_check_syntax.
  destruct (parser_parse env source) as [had_error ast] eqn:Hparse.
  destruct had_error, ast as [ast|];
    try (unfold tinytalk_run_string; rewrite Hparse;
         exists PARSE_ERROR; repeat split; reflexivity).
  destruct (is_blueprint_node ast) eqn:Hkind.
  - destruct ast; try discriminate Hkind.
    assert (Hreg : is_Some
              (find_blueprint
                 (with_blueprints (stdlib_init env (runtime_init []))
                    (blueprints (stdlib_init env (runtime_init []))
                     ++ [mkBlueprint name fields states whens]))
                 name)).
    { apply (find_blueprint_registered _ (mkBlueprint name fields states whens)).
      simpl. apply elem_of_app. right. apply list_elem_of_singleton. reflexivity. }
    destruct Hreg as [[i bp] Hfind].
    rewrite (run_string_blueprint _ _ _ _ _ _ _ _ Hparse Hroom Hfind).
    eexists. split; [reflexivity|]. split; [reflexivity | discriminate].
  - unfold tinytalk_run_string, runtime_execute. rewrite Hparse, Hkind.
    eexists. split; [destruct ast; try discriminate Hkind; reflexivity|].
    split; [reflexivity | discriminate].
Qed.





(** ** The command line *)



Lemma string_length_append (a b : string) :
  String.length (a +:+ b) = (String.length a + String.length b)%nat.
Proof.
  induction a as [|c a IH]; [reflexivity|].
  change (S (String.length (a +:+ b)) = S (String.length a + String.length b)).
  rewrite IH. reflexivity.
Qed.

Lemma cut_at_newline_length (line : string) :
  (String.length (cut_at_newline line) <= String.length line)%nat.
Proof.
  induction line as [|c line IH]; simpl; [lia|].
  destruct (Ascii.eqb c "010"%char); simpl; lia.
Qed.


